(** * oz: time-bounded access requests

    A shallow embedding of the request controller
    ([internal/controllers/base_request_controller.go]), of the exec
    access builder ([internal/builders/execaccessbuilder]) and of the
    wait loop of [ozctl create ExecAccessRequest], with the properties
    the design document states about them.

    Go values are embedded as follows.  [time.Duration] is an [int64]
    count of nanoseconds, here a [Z]; a Go [error] is an [option] of
    its message ([None] is [nil]); a function returning [(v, err)]
    returns a pair.  The controller talks to the cluster through an
    API client: the cluster, the in-memory request object, the clock and
    the record of the calls made are threaded explicitly through every
    function as a [World]. *)

From Stdlib Require Import ZArith List String Ascii Bool Lia.
Import ListNotations.
Open Scope string_scope.
Open Scope Z_scope.

(** ** Go's [time] package *)

(** A [Duration] is an [int64]; the code at hand compares durations
    and prints them, and does no arithmetic on them that could wrap
    around. *)

Module Time.

Definition Duration := Z.

Definition Nanosecond : Duration := 1.
Definition Microsecond : Duration := 1000 * Nanosecond.
Definition Millisecond : Duration := 1000 * Microsecond.
Definition Second : Duration := 1000 * Millisecond.
Definition Minute : Duration := 60 * Second.
Definition Hour : Duration := 60 * Minute.

(** [byte(digit) + '0'] *)
Definition digit (d : Z) : ascii := ascii_of_nat (48 + Z.to_nat d).

(** [fmtFrac] writes the fraction of [v / 10^prec] in front of [buf],
    without trailing zeros, and without the point when the fraction
    is zero; it returns the text and [v / 10^prec]. *)
Fixpoint fmtFrac_loop (prec : nat) (buf : string) (v : Z) (print : bool)
  : string * Z * bool :=
  match prec with
  | O => (buf, v, print)
  | S p =>
      let d := v mod 10 in
      let print := print || negb (d =? 0) in
      let buf := if print then String (digit d) buf else buf in
      fmtFrac_loop p buf (v / 10) print
  end.

Definition fmtFrac (buf : string) (v : Z) (prec : nat) : string * Z :=
  let '(buf, v, print) := fmtFrac_loop prec buf v false in
  (if print then String "." buf else buf, v).

(** [fmtInt] writes [v] in decimal in front of [buf].  A [uint64] has
    at most twenty digits, which bounds the loop. *)
Fixpoint fmtInt_loop (fuel : nat) (buf : string) (v : Z) : string :=
  match fuel with
  | O => buf
  | S f =>
      if 0 <? v then fmtInt_loop f (String (digit (v mod 10)) buf) (v / 10)
      else buf
  end.

Definition fmtInt (buf : string) (v : Z) : string :=
  if v =? 0 then String "0" buf else fmtInt_loop 20 buf v.

(** U+00B5, the micro sign, is the two bytes 0xC2 0xB5. *)
Definition micro : string :=
  String (ascii_of_nat 194) (String (ascii_of_nat 181) "").

(** [Duration.String]: "72h3m0.5s", "1.5ms", "0s". *)
Definition Duration_String (d : Duration) : string :=
  let u := Z.abs d in
  let neg := d <? 0 in
  let body :=
    if u <? Second then
      if u =? 0 then "0s"
      else if u <? Microsecond then
        let '(b, u) := fmtFrac "ns" u 0 in fmtInt b u
      else if u <? Millisecond then
        let '(b, u) := fmtFrac (micro ++ "s") u 3 in fmtInt b u
      else
        let '(b, u) := fmtFrac "ms" u 6 in fmtInt b u
    else
      let '(b, u) := fmtFrac "s" u 9 in
      let b := fmtInt b (u mod 60) in
      let u := u / 60 in
      if 0 <? u then
        let b := fmtInt (String "m" b) (u mod 60) in
        let u := u / 60 in
        if 0 <? u then fmtInt (String "h" b) u else b
      else b in
  if neg then String "-" body else body.

End Time.

(** ** Errors and results *)

(** A Go [error] value that is not [nil] is its message. *)
Definition error := string.

Inductive result (A : Type) : Type :=
| Ok (a : A)
| Error (e : error).
Arguments Ok {A} a.
Arguments Error {A} e.

(** ** The API objects *)

(** [metav1.ConditionStatus] *)
Inductive ConditionStatus := ConditionTrue | ConditionFalse | ConditionUnknown.

Definition ConditionStatus_eqb (a b : ConditionStatus) : bool :=
  match a, b with
  | ConditionTrue, ConditionTrue
  | ConditionFalse, ConditionFalse
  | ConditionUnknown, ConditionUnknown => true
  | _, _ => false
  end.

Definition ConditionStatus_String (s : ConditionStatus) : string :=
  match s with
  | ConditionTrue => "True"
  | ConditionFalse => "False"
  | ConditionUnknown => "Unknown"
  end.

(** [metav1.Condition] *)
Record Condition := {
  CondType : string;
  CondStatus : ConditionStatus;
  Reason : string;
  Message : string;
  LastTransitionTime : Z
}.

(** Modelled from the spec: the condition types of [v1alpha1], whose
    declarations are not part of the sources at hand; the names are the
    four the design document lists. *)
Definition ConditionRequestDurationsValid : string := "DurationsValid".
Definition ConditionAccessStillValid : string := "AccessStillValid".
Definition ConditionAccessResourcesCreated : string := "ResourcesCreated".
Definition ConditionAccessResourcesReady : string := "ResourcesReady".

(** Modelled from the spec: the request type of [v1alpha1], whose
    declaration is not part of the sources at hand.  A request names a
    template and carries an optional duration string and an optional
    target override. *)
Record ExecAccessRequestSpec := {
  TemplateName : string;
  Duration : string;
  TargetPod : string
}.

(** Modelled from the spec: the status of a request holds the
    conditions, the pod assigned (the target identity) and the access
    message. *)
Record ExecAccessRequestStatus := {
  Conditions : list Condition;
  PodName : string;
  AccessMessage : string
}.

(** Modelled from the spec: the request with its name, namespace and
    creation time (in nanoseconds, as the clock). *)
Record ExecAccessRequest := {
  Name : string;
  Namespace : string;
  CreationTimestamp : Z;
  Spec : ExecAccessRequestSpec;
  Status : ExecAccessRequestStatus
}.

(** Modelled from the spec: the template type of [v1alpha1]: the
    default and the maximum duration as strings, the pattern of the
    access command, the subjects access is granted to. *)
Record AccessConfig := {
  DefaultDuration : string;
  MaxDuration : string;
  AccessCommand : string;
  AllowedGroups : list string
}.

(** Modelled from the spec: the template and its access
    configuration. *)
Record ExecAccessTemplate := {
  TemplateObjName : string;
  TemplateAccessConfig : AccessConfig
}.

(** [corev1.Pod], as far as the builder reads it. *)
Record Pod := {
  PodObjName : string;
  PodObjNamespace : string
}.

(** [rbacv1.PolicyRule], [rbacv1.Role] and [rbacv1.RoleBinding] *)
Record PolicyRule := {
  APIGroups : list string;
  Resources : list string;
  ResourceNames : list string;
  Verbs : list string
}.

Record Role := {
  RoleName : string;
  Rules : list PolicyRule
}.

Record RoleBinding := {
  BindingName : string;
  RoleRef : string;
  Subjects : list string
}.

(** [corev1.GroupName] is the empty string: the core API group. *)
Definition corev1_GroupName : string := "".

(** ** Conditions: [k8s.io/apimachinery/pkg/api/meta] *)

(** [meta.FindStatusCondition]: the first condition of the given type,
    [None] for Go's [nil]. *)
Fixpoint FindStatusCondition (conditions : list Condition) (conditionType : string)
  : option Condition :=
  match conditions with
  | [] => None
  | c :: rest =>
      if String.eqb (CondType c) conditionType then Some c
      else FindStatusCondition rest conditionType
  end.

(** Modelled from the spec: how a condition is written into the list,
    which the status helpers (not part of the sources at hand) do.  The
    condition of that type is replaced in place, or appended when there
    is none; the transition time advances only when status or reason
    changes. *)
Definition stamp (now : Z) (old new : Condition) : Condition :=
  {| CondType := CondType new;
     CondStatus := CondStatus new;
     Reason := Reason new;
     Message := Message new;
     LastTransitionTime :=
       if ConditionStatus_eqb (CondStatus old) (CondStatus new)
          && String.eqb (Reason old) (Reason new)
       then LastTransitionTime old else now |}.

Fixpoint SetStatusCondition (now : Z) (conditions : list Condition) (new : Condition)
  : list Condition :=
  match conditions with
  | [] => [ {| CondType := CondType new; CondStatus := CondStatus new;
               Reason := Reason new; Message := Message new;
               LastTransitionTime := now |} ]
  | c :: rest =>
      if String.eqb (CondType c) (CondType new) then stamp now c new :: rest
      else c :: SetStatusCondition now rest new
  end.

(** ** The world a reconciliation pass runs in *)

(** What the controller and the builder ask of their surroundings, most
    recent call first in the record kept of them. *)
Inductive Call :=
| CallLog (msg : string)
| CallSetCondition (c : Condition)
| CallStatusUpdate (st : ExecAccessRequestStatus)
| CallDelete (name : string)
| CallGetPod
| CallCreateRole (name : string) (rules : list PolicyRule)
| CallCreateRoleBinding (name : string) (role : string).

Record World := {
  request : ExecAccessRequest;        (* builder.GetRequest(), the in-memory object *)
  stored : option ExecAccessRequest;  (* the object in the cluster, None once deleted *)
  roles : list Role;
  roleBindings : list RoleBinding;
  pods : list Pod;
  now : Z;                            (* the clock, in nanoseconds *)
  faults : list bool;                 (* true: the next API write fails *)
  calls : list Call
}.

Definition with_request (r : ExecAccessRequest) (w : World) : World :=
  {| request := r; stored := stored w; roles := roles w;
     roleBindings := roleBindings w; pods := pods w; now := now w;
     faults := faults w; calls := calls w |}.

Definition with_stored (s : option ExecAccessRequest) (w : World) : World :=
  {| request := request w; stored := s; roles := roles w;
     roleBindings := roleBindings w; pods := pods w; now := now w;
     faults := faults w; calls := calls w |}.

Definition with_roles (rs : list Role) (w : World) : World :=
  {| request := request w; stored := stored w; roles := rs;
     roleBindings := roleBindings w; pods := pods w; now := now w;
     faults := faults w; calls := calls w |}.

Definition with_roleBindings (bs : list RoleBinding) (w : World) : World :=
  {| request := request w; stored := stored w; roles := roles w;
     roleBindings := bs; pods := pods w; now := now w;
     faults := faults w; calls := calls w |}.

Definition with_faults (fs : list bool) (w : World) : World :=
  {| request := request w; stored := stored w; roles := roles w;
     roleBindings := roleBindings w; pods := pods w; now := now w;
     faults := fs; calls := calls w |}.

Definition with_calls (cs : list Call) (w : World) : World :=
  {| request := request w; stored := stored w; roles := roles w;
     roleBindings := roleBindings w; pods := pods w; now := now w;
     faults := faults w; calls := cs |}.

Definition with_status (st : ExecAccessRequestStatus) (r : ExecAccessRequest)
  : ExecAccessRequest :=
  {| Name := Name r; Namespace := Namespace r;
     CreationTimestamp := CreationTimestamp r; Spec := Spec r; Status := st |}.

Definition with_conditions (cs : list Condition) (st : ExecAccessRequestStatus)
  : ExecAccessRequestStatus :=
  {| Conditions := cs; PodName := PodName st; AccessMessage := AccessMessage st |}.

(** A computation in the world. *)
Definition M (A : Type) : Type := World -> A * World.

Definition ret {A} (a : A) : M A := fun w => (a, w).

Definition bind {A B} (m : M A) (k : A -> M B) : M B :=
  fun w => let (a, w') := m w in k a w'.

Notation "x <- m ;; k" := (bind m (fun x => k))
  (at level 61, m at next level, right associativity).
Notation "m ;;; k" := (bind m (fun _ => k))
  (at level 61, right associativity).

Definition getRequest : M ExecAccessRequest := fun w => (request w, w).

Definition record (c : Call) : M unit :=
  fun w => (tt, with_calls (c :: calls w) w).

(** [logger.Info] *)
Definition logInfo (msg : string) : M unit := record (CallLog msg).

(** Whether the API server refuses the next write (a conflict, a lost
    connection, a missing permission): the next entry of the fault
    script, and no fault once the script is used up. *)
Definition nextFault : M bool :=
  fun w =>
    match faults w with
    | [] => (false, w)
    | f :: fs => (f, with_faults fs w)
    end.

Definition errAPI : error := "the server rejected the request".
Definition errNotFound : error := "not found".

(** [client.Status().Update(ctx, req)]: writes the status of the
    in-memory request to the stored object. *)
Definition clientStatusUpdate : M (option error) :=
  req <- getRequest ;;
  record (CallStatusUpdate (Status req)) ;;;
  fault <- nextFault ;;
  if fault then ret (Some errAPI)
  else fun w =>
    match stored w with
    | None => (Some errNotFound, w)
    | Some s => (None, with_stored (Some (with_status (Status (request w)) s)) w)
    end.

(** [client.Delete(ctx, req)] *)
Definition clientDelete : M (option error) :=
  req <- getRequest ;;
  record (CallDelete (Name req)) ;;;
  fault <- nextFault ;;
  if fault then ret (Some errAPI)
  else fun w =>
    match stored w with
    | None => (Some errNotFound, w)
    | Some _ => (None, with_stored None w)
    end.

(** ** What lies outside the sources at hand *)

(** The collaborators the code calls and whose bodies are elsewhere:
    Go's [time.ParseDuration] (which rounds fractions in floating
    point), the target selection [internal.GetPod] (it returns a pod, an
    error, or neither), the rendering of the access command
    [utils.CreateAccessCommand], and the name the permission objects of
    a request get, a function of the request's namespace and name. *)
Record Collaborators := {
  ParseDuration : string -> result Time.Duration;
  GetPod : list Pod -> ExecAccessRequest -> ExecAccessTemplate
           -> option Pod * option error;
  CreateAccessCommand : string -> Pod -> result string;
  generateResourceName : string -> string -> string
}.

(** ** The status helpers: [internal/controllers/internal/status] *)

(** The status helpers, whose package is not part of the sources at
    hand, follow the design document: a helper writes one condition
    into the in-memory request and then writes the status to the
    cluster; a write the server refuses leaves the stored object as it
    was and is returned as the helper's error.  The text a helper is
    given is recorded as the reason and as the message of the
    condition. *)

(** Modelled from the spec: the request with the condition written
    into its status. *)
Definition setCondition (now : Z) (c : Condition) (r : ExecAccessRequest)
  : ExecAccessRequest :=
  with_status
    (with_conditions (SetStatusCondition now (Conditions (Status r)) c) (Status r)) r.

(** Modelled from the spec: the update of one condition, in memory
    and then in the cluster. *)
Definition UpdateCondition (c : Condition) : M (option error) :=
  record (CallSetCondition c) ;;;
  (fun w => (tt, with_request (setCondition (now w) c (request w)) w)) ;;;
  clientStatusUpdate.

(** Modelled from the spec: the condition a helper writes. *)
Definition mkCondition (t : string) (s : ConditionStatus) (text : string) : Condition :=
  {| CondType := t; CondStatus := s; Reason := text; Message := text;
     LastTransitionTime := 0 |}.

(** Modelled from the spec: [DurationsValid=True] with the reason of
    the branch chosen. *)
Definition SetRequestDurationsValid (reasonStr : string) : M (option error) :=
  UpdateCondition (mkCondition ConditionRequestDurationsValid ConditionTrue reasonStr).

(** Modelled from the spec: [DurationsValid=False], the offending field
    named in the message. *)
Definition SetRequestDurationsNotValid (msg : string) : M (option error) :=
  UpdateCondition (mkCondition ConditionRequestDurationsValid ConditionFalse msg).

(** Modelled from the spec: [AccessStillValid=False] with reason
    "expired". *)
Definition SetAccessNotValid : M (option error) :=
  UpdateCondition (mkCondition ConditionAccessStillValid ConditionFalse "expired").

(** Modelled from the spec: [AccessStillValid=True].  The helper is
    given neither the resolved duration nor the time left, so the
    reason is a fixed text. *)
Definition SetAccessStillValid : M (option error) :=
  UpdateCondition (mkCondition ConditionAccessStillValid ConditionTrue "still valid").

(** Modelled from the spec: [ResourcesCreated=True] with the builder's
    status message. *)
Definition SetAccessResourcesCreated (statusString : string) : M (option error) :=
  UpdateCondition (mkCondition ConditionAccessResourcesCreated ConditionTrue statusString).

(** Modelled from the spec: [ResourcesCreated=False] with the
    builder's error. *)
Definition SetAccessResourcesNotCreated (err : error) : M (option error) :=
  UpdateCondition (mkCondition ConditionAccessResourcesCreated ConditionFalse err).

(** Modelled from the spec: [ResourcesReady=True] with the builder's
    status message. *)
Definition SetAccessResourcesReady (statusString : string) : M (option error) :=
  UpdateCondition (mkCondition ConditionAccessResourcesReady ConditionTrue statusString).

(** Modelled from the spec: [ResourcesReady=False] with the builder's
    error. *)
Definition SetAccessResourcesNotReady (err : error) : M (option error) :=
  UpdateCondition (mkCondition ConditionAccessResourcesReady ConditionFalse err).

(** ** The request controller: [base_request_controller.go] *)

(** [legacybuilder.IBuilder], and [IPodAccessBuilder] for the builders
    that also verify readiness: the request is the one of the world,
    the template and the operations are the builder's. *)
Record IBuilder := {
  GetTemplate : ExecAccessTemplate;
  GenerateAccessResources : M (string * option error);
  VerifyAccessResources : option (M (string * option error))
}.

(** The choice of the duration in [verifyDuration]: the duration
    granted and the reason logged and recorded. *)
Definition chooseDuration (requestedDuration templateDefaultDuration
                           templateMaxDuration : Time.Duration)
  : Time.Duration * string :=
  if requestedDuration =? 0 then
    (templateDefaultDuration,
     "Access request duration defaulting to template duration time ("
       ++ Time.Duration_String templateDefaultDuration ++ ")")
  else if requestedDuration <=? templateMaxDuration then
    (requestedDuration,
     "Access requested custom duration ("
       ++ Time.Duration_String requestedDuration ++ ")")
  else
    (templateMaxDuration,
     "Access requested duration (" ++ Time.Duration_String requestedDuration
       ++ ") larger than template maximum duration ("
       ++ Time.Duration_String templateMaxDuration ++ ")").

Section Controller.

Variable ext : Collaborators.

(** Modelled from the spec: the duration of the request is optional,
    and absent means zero. *)
Definition GetDuration (req : ExecAccessRequest) : result Time.Duration :=
  if String.eqb (Duration (Spec req)) "" then Ok 0
  else ParseDuration ext (Duration (Spec req)).

(** Modelled from the spec: the default duration of the template,
    parsed as it stands. *)
Definition GetDefaultDuration (c : AccessConfig) : result Time.Duration :=
  ParseDuration ext (DefaultDuration c).

(** Modelled from the spec: the maximum duration of the template,
    parsed as it stands. *)
Definition GetMaxDuration (c : AccessConfig) : result Time.Duration :=
  ParseDuration ext (MaxDuration c).

(** Modelled from the spec: the age of the request, now minus its
    creation time. *)
Definition GetUptime : M Time.Duration :=
  fun w => (now w - CreationTimestamp (request w), w).

(** [DeleteResource] *)
Definition DeleteResource : M (option error) := clientDelete.

(** [verifyDuration] *)
Definition verifyDuration (builder : IBuilder) : M (option error) :=
  logInfo "Beginning access request duration verification" ;;;
  req <- getRequest ;;
  match GetDuration req with
  | Error err =>
      SetRequestDurationsNotValid ("spec.duration error: " ++ err) ;;;
      ret (Some err)
  | Ok requestedDuration =>
  match GetDefaultDuration (TemplateAccessConfig (GetTemplate builder)) with
  | Error err =>
      SetRequestDurationsNotValid
        ("Template Error, spec.defaultDuration error: " ++ err) ;;;
      ret (Some err)
  | Ok templateDefaultDuration =>
  match GetMaxDuration (TemplateAccessConfig (GetTemplate builder)) with
  | Error err =>
      SetRequestDurationsNotValid
        ("Template Error, spec.maxDuration error: " ++ err) ;;;
      ret (Some err)
  | Ok templateMaxDuration =>
      let '(accessDuration, reasonStr) :=
        chooseDuration requestedDuration templateDefaultDuration
                       templateMaxDuration in
      logInfo reasonStr ;;;
      err <- SetRequestDurationsValid reasonStr ;;
      match err with
      | Some e => ret (Some e)
      | None =>
          uptime <- GetUptime ;;
          if accessDuration <? uptime then SetAccessNotValid
          else SetAccessStillValid
      end
  end end end.

(** [isAccessExpired] *)
Definition isAccessExpired : M (bool * option error) :=
  logInfo "Checking if access has expired or not..." ;;;
  req <- getRequest ;;
  match FindStatusCondition (Conditions (Status req)) ConditionAccessStillValid with
  | None =>
      logInfo ("Missing Condition " ++ ConditionAccessStillValid
                 ++ ", skipping deletion") ;;;
      ret (false, None)
  | Some cond =>
      if ConditionStatus_eqb (CondStatus cond) ConditionFalse then
        logInfo ("Found Condition " ++ ConditionAccessStillValid ++ " in state "
                   ++ ConditionStatus_String (CondStatus cond)
                   ++ ", terminating rqeuest") ;;;
        err <- DeleteResource ;;
        ret (true, err)
      else
        logInfo ("Found Condition " ++ ConditionAccessStillValid ++ " in state "
                   ++ ConditionStatus_String (CondStatus cond)
                   ++ ", leaving alone") ;;;
        ret (false, None)
  end.

(** [verifyAccessResourcesBuilt] *)
Definition verifyAccessResourcesBuilt (builder : IBuilder) : M (option error) :=
  logInfo "Verifying that access resources are built" ;;;
  r <- GenerateAccessResources builder ;;
  match r with
  | (_, Some err) =>
      SetAccessResourcesNotCreated err ;;;
      ret (Some err)
  | (statusString, None) => SetAccessResourcesCreated statusString
  end.

(** [verifyAccessResourcesReady], for a builder that has the
    readiness operation [verify]. *)
Definition verifyAccessResourcesReady (verify : M (string * option error))
  : M (option error) :=
  logInfo "Verifying that access resources are ready" ;;;
  r <- verify ;;
  match r with
  | (_, Some err) =>
      SetAccessResourcesNotReady err ;;;
      ret (Some err)
  | (statusString, None) => SetAccessResourcesReady statusString
  end.

End Controller.

(** ** The exec access builder: [execaccessbuilder] *)

(** The permissions an access request grants, for the target pod. *)
Definition accessRules (targetPod : Pod) : list PolicyRule :=
  [ {| APIGroups := [corev1_GroupName];
       Resources := ["pods"];
       ResourceNames := [PodObjName targetPod];
       Verbs := ["get"; "list"; "watch"] |};
    {| APIGroups := [corev1_GroupName];
       Resources := ["pods/exec"];
       ResourceNames := [PodObjName targetPod];
       Verbs := ["create"; "update"; "delete"; "get"; "list"] |} ].

(** Modelled from the spec: [Status.SetAccessMessage] puts the access
    message into the status of the in-memory request. *)
Definition SetAccessMessage (msg : string) : M unit :=
  fun w =>
    let r := request w in
    (tt, with_request
           (with_status {| Conditions := Conditions (Status r);
                           PodName := PodName (Status r);
                           AccessMessage := msg |} r) w).

(** Modelled from the spec: [SetPodName] puts the target identity into
    the status of the in-memory request, once; as the builder notes
    where it calls it, it fails only when the name has been set
    already. *)
Definition SetPodName (name : string) : M (option error) :=
  fun w =>
    let r := request w in
    if String.eqb (PodName (Status r)) "" then
      (None, with_request
               (with_status {| Conditions := Conditions (Status r);
                               PodName := name;
                               AccessMessage := AccessMessage (Status r) |} r) w)
    else (Some "immutable field Status.PodName already set", w).

Section Builder.

Variable ext : Collaborators.

(** [internal.GetPod] *)
Definition internalGetPod (tmpl : ExecAccessTemplate)
  : M (option Pod * option error) :=
  record CallGetPod ;;;
  fun w => (GetPod ext (pods w) (request w) tmpl, w).

(** Modelled from the spec: [utils.CreateRole] gets or creates the
    role of the request, named from the request's identity; a role of
    that name that exists already is returned as it is. *)
Definition CreateRole (rules : list PolicyRule) : M (result Role) :=
  req <- getRequest ;;
  let name := generateResourceName ext (Namespace req) (Name req) in
  record (CallCreateRole name rules) ;;;
  fun w =>
    match find (fun r => String.eqb (RoleName r) name) (roles w) with
    | Some r => (Ok r, w)
    | None =>
        let (fault, w) := nextFault w in
        if fault then (Error errAPI, w)
        else
          let r := {| RoleName := name; Rules := rules |} in
          (Ok r, with_roles (r :: roles w) w)
    end.

(** Modelled from the spec: [utils.CreateRoleBinding] gets or creates
    the binding of the role to the subjects the template declares. *)
Definition CreateRoleBinding (tmpl : ExecAccessTemplate) (role : Role)
  : M (result RoleBinding) :=
  req <- getRequest ;;
  let name := generateResourceName ext (Namespace req) (Name req) in
  record (CallCreateRoleBinding name (RoleName role)) ;;;
  fun w =>
    match find (fun b => String.eqb (BindingName b) name) (roleBindings w) with
    | Some b => (Ok b, w)
    | None =>
        let (fault, w) := nextFault w in
        if fault then (Error errAPI, w)
        else
          let b := {| BindingName := name; RoleRef := RoleName role;
                      Subjects := AllowedGroups (TemplateAccessConfig tmpl) |} in
          (Ok b, with_roleBindings (b :: roleBindings w) w)
    end.

(** [CreateAccessResources] *)
Definition CreateAccessResources (tmpl : ExecAccessTemplate)
  : M (string * option error) :=
  execReq <- getRequest ;;
  if negb (String.eqb (PodName (Status execReq)) "") then
    ret ("Pod already assigned -" ++ Name execReq, None)
  else
    found <- internalGetPod tmpl ;;
    match found with
    | (_, Some _) | (None, None) =>
        ret ("", Some ("targetPod not found " ++ Name execReq))
    | (Some targetPod, None) =>
        let rules := accessRules targetPod in
        role <- CreateRole rules ;;
        match role with
        | Error err => ret ("", Some err)
        | Ok role =>
        rb <- CreateRoleBinding tmpl role ;;
        match rb with
        | Error err => ret ("", Some err)
        | Ok rb =>
        match CreateAccessCommand ext
                (AccessCommand (TemplateAccessConfig tmpl)) targetPod with
        | Error err => ret ("", Some err)
        | Ok accessString =>
        SetAccessMessage accessString ;;;
        err <- clientStatusUpdate ;;
        match err with
        | Some err => ret ("", Some err)
        | None =>
        err <- SetPodName (PodObjName targetPod) ;;
        match err with
        | Some err => ret ("", Some err)
        | None =>
            ret ("Success. Role " ++ RoleName role ++ ", RoleBinding "
                   ++ BindingName rb ++ " created", None)
        end end end end end
    end.

(** Modelled from the spec: the exec kind is bound to the exec access
    builder, whose provisioning operation is [CreateAccessResources];
    the design document describes no readiness operation for it. *)
Definition ExecAccessBuilder (tmpl : ExecAccessTemplate) : IBuilder :=
  {| GetTemplate := tmpl;
     GenerateAccessResources := CreateAccessResources tmpl;
     VerifyAccessResources := None |}.

End Builder.

(** ** A reconciliation pass *)

(** Modelled from the spec: how a pass ends. *)
Inductive PassResult :=
| PassDeleted                 (* the request was expired and deleted *)
| PassFailed (e : error)      (* the pass stopped on an error *)
| PassRequeue.                (* done; the next pass is scheduled *)

(** Modelled from the spec: [refetch], the strongly consistent read of
    the stored request into the in-memory object. *)
Definition refetch : M (option error) :=
  fun w =>
    match stored w with
    | Some s => (None, with_request s w)
    | None => (Some errNotFound, w)
    end.

Section Pass.

Variable ext : Collaborators.

(** Modelled from the spec: the expiration guard, stopping the pass
    when the request has been deleted. *)
Definition guard (continue : M PassResult) : M PassResult :=
  r <- isAccessExpired ;;
  match r with
  | (_, Some e) => ret (PassFailed e)
  | (true, None) => ret PassDeleted
  | (false, None) => continue
  end.

(** Modelled from the spec: provisioning, and readiness for the
    builders that verify it (steps 5 to 7 of the pass). *)
Definition provision (builder : IBuilder) : M PassResult :=
  err <- verifyAccessResourcesBuilt builder ;;
  match err with
  | Some e => ret (PassFailed e)
  | None =>
      match VerifyAccessResources builder with
      | None => ret PassRequeue
      | Some verify =>
          err <- verifyAccessResourcesReady verify ;;
          match err with
          | Some e => ret (PassFailed e)
          | None => ret PassRequeue
          end
      end
  end.

(** Modelled from the spec: the duration policy and the full
    expiration check with the duration just resolved (steps 3 and 4),
    then the rest of the pass. *)
Definition checkDuration (builder : IBuilder) (continue : M PassResult)
  : M PassResult :=
  err <- verifyDuration ext builder ;;
  match err with
  | Some e => ret (PassFailed e)
  | None => guard continue
  end.

(** Modelled from the spec: the pass, whose function is not part of
    the sources at hand: refetch, the expiration pre-check, the
    duration policy, the expiration check, provisioning, readiness,
    each step stopping the pass on its error. *)
Definition reconcile (builder : IBuilder) : M PassResult :=
  err <- refetch ;;
  match err with
  | Some e => ret (PassFailed e)
  | None => guard (checkDuration builder (provision builder))
  end.

End Pass.

(** ** The command-line front end: the wait of [ozctl create ExecAccessRequest] *)

Module Ozctl.

(** What the command writes: through the command's printer
    ([cmd.Print] and its kin) or straight to standard output
    ([fmt.Println]). *)
Inductive Output :=
| CmdPrint (s : string)
| Stdout (s : string).

(** What one [KubeClient.Get] answers, and how long it took. *)
Record GetReply := {
  latency : Z;
  reply : result ExecAccessRequest
}.

(** The process: its clock, the number of [Get] calls made so far,
    what it wrote (most recent first) and how long it slept in
    all. *)
Record Process := {
  clock : Z;
  gets : nat;
  out : list Output;
  slept : Z
}.

(** How the wait ends: the request is ready and the loop is left, the
    process exits, or the loop is still running when the steps
    granted to it are used up. *)
Inductive Outcome :=
| Ready
| Exit (code : Z)
| Running.

Definition nl : string := String (ascii_of_nat 10) "".

Definition print (o : Output) (p : Process) : Process :=
  {| clock := clock p; gets := gets p; out := o :: out p; slept := slept p |}.

(** [time.Sleep] *)
Definition sleep (d : Z) (p : Process) : Process :=
  {| clock := clock p + d; gets := gets p; out := out p; slept := slept p + d |}.

Definition printCondition (c : Condition) : Output :=
  CmdPrint ("Condition " ++ CondType c
              ++ ", State: " ++ ConditionStatus_String (CondStatus c)
              ++ ", Reason: " ++ Reason c
              ++ ", Message: " ++ Message c ++ nl).

Section Wait.

(** [req.IsReady()] of the API type, and the API server as the
    client sees it: the answer to the n-th [Get]. *)
Variable IsReady : ExecAccessRequest -> bool.
Variable KubeClientGet : nat -> GetReply.

Definition get (p : Process) : result ExecAccessRequest * Process :=
  let r := KubeClientGet (gets p) in
  (reply r,
   {| clock := clock p + latency r; gets := S (gets p); out := out p;
      slept := slept p |}).

(** The [for] loop of the command, [deadline] being the time at
    which the timeout context [waitCtx] is done. *)
Fixpoint waitLoop (steps : nat) (deadline : Z) (req : ExecAccessRequest)
                  (p : Process) : Outcome * Process :=
  match steps with
  | O => (Running, p)
  | S steps =>
      let (r, p) := get p in
      match r with
      | Error err =>
          let p := print (CmdPrint (nl ++ "Error updating request status: "
                                       ++ err ++ nl)) p in
          waitLoop steps deadline req p
      | Ok req =>
          if IsReady req then
            (Ready,
             print (CmdPrint (nl ++ "Success, your access request is ready!"
                                 ++ nl)) p)
          else if deadline <=? clock p then
            let p := print (Stdout (nl ++ "Error - timed out waiting for "
                                       ++ "ExecAccessRequest to be ready" ++ nl)) p in
            let p := fold_left (fun p c => print (printCondition c) p)
                               (Conditions (Status req)) p in
            (Exit 1, p)
          else
            let p := print (CmdPrint ".") p in
            let p := sleep (1 * Time.Second) p in
            waitLoop steps deadline req p
      end
  end.

(** The wait: the message, the timeout context, the loop. *)
Definition waitForReady (steps : nat) (waitDuration : Time.Duration)
                        (req : ExecAccessRequest) (p : Process)
  : Outcome * Process :=
  let p := print (CmdPrint "Waiting for ExecAccessRequest to be ready.") p in
  waitLoop steps (clock p + waitDuration) req p.

End Wait.

End Ozctl.

(** ** The vocabulary of the properties *)

(** The request [r] has a condition of type [t], with status [s] and
    with [text] as its reason and message. *)
Definition hasCondition (r : ExecAccessRequest) (t : string)
                        (s : ConditionStatus) (text : string) : Prop :=
  exists c, FindStatusCondition (Conditions (Status r)) t = Some c
            /\ CondStatus c = s /\ Reason c = text /\ Message c = text.

(** The calls made from world [w] to world [w'], most recent first. *)
Definition callsSince (w w' : World) (new : list Call) : Prop :=
  calls w' = (new ++ calls w)%list.

Definition isDelete (c : Call) : bool :=
  match c with CallDelete _ => true | _ => false end.

Definition isSetCondition (c : Call) : bool :=
  match c with CallSetCondition _ => true | _ => false end.

(** The API server performs every write asked of it from [w] on: no
    fault is left in the script. *)
Definition serverObliging (w : World) : Prop :=
  Forall (fun fault => fault = false) (faults w).

(** ** Sample objects *)

Module Sample.

(** A parser that knows a handful of duration strings. *)
Definition parse (s : string) : result Time.Duration :=
  if String.eqb s "30m" then Ok (30 * Time.Minute)
  else if String.eqb s "1h" then Ok (1 * Time.Hour)
  else if String.eqb s "2h" then Ok (2 * Time.Hour)
  else if String.eqb s "5h" then Ok (5 * Time.Hour)
  else Error ("time: invalid duration " ++ s).

(** The pod the request names, or else the first pod there is. *)
Definition pick (ps : list Pod) (req : ExecAccessRequest) (_ : ExecAccessTemplate)
  : option Pod * option error :=
  if String.eqb (TargetPod (Spec req)) "" then (hd_error ps, None)
  else (find (fun p => String.eqb (PodObjName p) (TargetPod (Spec req))) ps, None).

Definition ext : Collaborators :=
  {| ParseDuration := parse;
     GetPod := pick;
     CreateAccessCommand :=
       fun pattern pod => Ok (pattern ++ " " ++ PodObjName pod);
     generateResourceName := fun ns name => ns ++ "-" ++ name |}.

(** The template of the scenarios: thirty minutes by default, two
    hours at most. *)
Definition template : ExecAccessTemplate :=
  {| TemplateObjName := "debug";
     TemplateAccessConfig :=
       {| DefaultDuration := "30m"; MaxDuration := "2h";
          AccessCommand := "kubectl exec -ti";
          AllowedGroups := ["admins"] |} |}.

Definition requestFor (duration : string) (conditions : list Condition)
                      (pod : string) : ExecAccessRequest :=
  {| Name := "alice-x7"; Namespace := "prod"; CreationTimestamp := 0;
     Spec := {| TemplateName := "debug"; Duration := duration; TargetPod := "" |};
     Status := {| Conditions := conditions; PodName := pod;
                  AccessMessage := "" |} |}.

(** A world in which the request is [age] old and the server does
    what it is asked. *)
Definition world (req : ExecAccessRequest) (age : Z) : World :=
  {| request := req; stored := Some req; roles := []; roleBindings := [];
     pods := [ {| PodObjName := "web-0"; PodObjNamespace := "prod" |};
               {| PodObjName := "web-1"; PodObjNamespace := "prod" |} ];
     now := age; faults := []; calls := [] |}.


Definition stillValid (s : ConditionStatus) : Condition :=
  {| CondType := ConditionAccessStillValid; CondStatus := s;
     Reason := "r"; Message := "m"; LastTransitionTime := 0 |}.

(** An API server that cannot be reached: every [Get] fails, after a
    second. *)
Definition unreachable (_ : nat) : Ozctl.GetReply :=
  {| Ozctl.latency := 1 * Time.Second;
     Ozctl.reply := Error "connection refused" |}.

(** An API server that answers each [Get] at once with the request
    [req]. *)
Definition answering (req : ExecAccessRequest) (_ : nat) : Ozctl.GetReply :=
  {| Ozctl.latency := 0; Ozctl.reply := Ok req |}.

Definition startOfWait : Ozctl.Process :=
  {| Ozctl.clock := 0; Ozctl.gets := 0; Ozctl.out := []; Ozctl.slept := 0 |}.

(** Ready once [ResourcesReady] is [True]. *)
Definition isReady (req : ExecAccessRequest) : bool :=
  match FindStatusCondition (Conditions (Status req))
          ConditionAccessResourcesReady with
  | Some c => ConditionStatus_eqb (CondStatus c) ConditionTrue
  | None => false
  end.

End Sample.

(** Go's [strings.Contains]. *)
Fixpoint contains (needle hay : string) : bool :=
  String.prefix needle hay
  || match hay with
     | EmptyString => false
     | String _ rest => contains needle rest
     end.

(** The reasons the design document promises to the observers of the
    conditions. *)
Definition reasonVocabulary : list string :=
  ["defaulted"; "clamped"; "expired"; "already-assigned"].

Definition inReasonVocabulary (reason : string) : bool :=
  existsb (fun word => contains word reason) reasonVocabulary.

(** [verifyDuration] rejects the durations of the request and of the
    template: it returns the error [e], leaves [DurationsValid=False]
    with the message [msg], updates no other condition, and the pass
    stops there, whatever was to follow. *)
Definition rejectsDurations (ext : Collaborators) (builder : IBuilder)
                            (w : World) (msg : string) (e : error) : Prop :=
  let '(err, w') := verifyDuration ext builder w in
  err = Some e
  /\ hasCondition (request w') ConditionRequestDurationsValid ConditionFalse msg
  /\ (exists st,
        calls w'
        = CallStatusUpdate st
            :: CallSetCondition
                 (mkCondition ConditionRequestDurationsValid ConditionFalse msg)
            :: CallLog "Beginning access request duration verification"
            :: calls w)
  /\ forall continue, checkDuration ext builder continue w = (PassFailed e, w').


Definition strings_eqb (a b : list string) : bool :=
  if list_eq_dec string_dec a b then true else false.

Definition allIn (allowed verbs : list string) : bool :=
  forallb (fun v => existsb (String.eqb v) allowed) verbs.

(** A rule of least privilege for the pod [name]: it names that pod and
    no other, in the core group, and grants reading and watching on
    pods or the handling of sessions on pods/exec, and nothing else. *)
Definition leastPrivilege (name : string) (rule : PolicyRule) : bool :=
  strings_eqb (ResourceNames rule) [name]
  && strings_eqb (APIGroups rule) [corev1_GroupName]
  && ((strings_eqb (Resources rule) ["pods"]
       && allIn ["get"; "list"; "watch"] (Verbs rule))
      || (strings_eqb (Resources rule) ["pods/exec"]
          && allIn ["create"; "update"; "delete"; "get"; "list"] (Verbs rule))).

(** The pod [p] is the target identity of the request, in memory and in
    the cluster, and the permission objects are [rs] and [bs]. *)
Definition assignedTo (p : string) (rs : list Role) (bs : list RoleBinding)
                      (w : World) : Prop :=
  PodName (Status (request w)) = p
  /\ (forall s, stored w = Some s -> PodName (Status s) = p)
  /\ roles w = rs /\ roleBindings w = bs.

(** A computation keeps what holds of the world. *)
Definition preserves {A} (I : World -> Prop) (m : M A) : Prop :=
  forall w, I w -> I (snd (m w)).

(** ** The command-line front end: the checks and the run of
    [ozctl create ExecAccessRequest] *)

Module Cmd.

(** Regular expressions, as far as the command uses them: classes of
    bytes, sequence, choice and repetition, matched by derivatives. *)
Inductive Regex :=
| Void
| Eps
| Class (ranges : list (nat * nat))
| Cat (r1 r2 : Regex)
| Alt (r1 r2 : Regex)
| Star (r : Regex).

(** [r+] *)
Definition Plus (r : Regex) : Regex := Cat r (Star r).

Definition inClass (ranges : list (nat * nat)) (c : ascii) : bool :=
  existsb (fun range => Nat.leb (fst range) (nat_of_ascii c)
                        && Nat.leb (nat_of_ascii c) (snd range)) ranges.

Fixpoint nullable (r : Regex) : bool :=
  match r with
  | Void => false
  | Eps => true
  | Class _ => false
  | Cat r1 r2 => nullable r1 && nullable r2
  | Alt r1 r2 => nullable r1 || nullable r2
  | Star _ => true
  end.

Fixpoint deriv (c : ascii) (r : Regex) : Regex :=
  match r with
  | Void => Void
  | Eps => Void
  | Class ranges => if inClass ranges c then Eps else Void
  | Cat r1 r2 =>
      Alt (Cat (deriv c r1) r2) (if nullable r1 then deriv c r2 else Void)
  | Alt r1 r2 => Alt (deriv c r1) (deriv c r2)
  | Star r1 => Cat (deriv c r1) (Star r1)
  end.

(** An expression that is seen to match nothing at all. *)
Fixpoint dead (r : Regex) : bool :=
  match r with
  | Void => true
  | Eps => false
  | Class _ => false
  | Cat r1 r2 => dead r1 || dead r2
  | Alt r1 r2 => dead r1 && dead r2
  | Star _ => false
  end.

(** Some prefix of [s] matches [r]. *)
Fixpoint matchPrefix (r : Regex) (s : string) : bool :=
  nullable r
  || match s with
     | EmptyString => false
     | String c rest => matchPrefix (deriv c r) rest
     end.

(** Some part of [s] matches [r]. *)
Fixpoint matchAnywhere (r : Regex) (s : string) : bool :=
  matchPrefix r s
  || match s with
     | EmptyString => false
     | String _ rest => matchAnywhere r rest
     end.

(** A compiled pattern: whether it begins with [^], and the rest. *)
Record Regexp := {
  beginText : bool;
  body : Regex
}.

(** [re.MatchString]: whether the string contains a match; with [^] at
    its head the pattern matches at the beginning of the text only. *)
Definition MatchString (re : Regexp) (s : string) : bool :=
  if beginText re then matchPrefix (body re) s else matchAnywhere (body re) s.

Definition lower : nat * nat := (97, 122)%nat.   (* a-z *)
Definition digits : nat * nat := (48, 57)%nat.   (* 0-9 *)
Definition dash : nat * nat := (45, 45)%nat.     (* - *)

(** The pattern of the request name prefix, [^[a-z][a-z0-9-][a-z0-9]+]. *)
Definition requestNameRe : Regexp :=
  {| beginText := true;
     body := Cat (Class [lower])
               (Cat (Class [lower; digits; dash])
                    (Plus (Class [lower; digits]))) |}.

(** The flags of the command, and the namespace it works in. *)
Record Flags := {
  template : string;
  targetPod : string;
  duration : string;
  requestNamePrefix : string;
  waitTime : string;
  KubeNamespace : string
}.

(** [PreRunE]: the static validation of the inputs.  The pattern is a
    constant that compiles, so that [regexp.Compile] returns no
    error. *)
Definition PreRunE (parse : string -> result Time.Duration) (f : Flags)
                   (out : list Ozctl.Output)
  : option error * list Ozctl.Output :=
  let out := Ozctl.CmdPrint "Validating --request-name prefix... " :: out in
  if negb (MatchString requestNameRe (requestNamePrefix f)) then
    (Some ("invalid request name prefix: " ++ requestNamePrefix f), out)
  else
    let out := Ozctl.CmdPrint ("valid!" ++ Ozctl.nl) :: out in
    let out := Ozctl.CmdPrint "Validating --wait-time... " :: out in
    match parse (waitTime f) with
    | Error _ => (Some ("invalid time supplied: " ++ waitTime f), out)
    | Ok _ => (None, Ozctl.CmdPrint ("valid!" ++ Ozctl.nl) :: out)
    end.

(** The API server as the command meets it: the lookup of a template
    by name and namespace, the creation of a request under a generated
    name (it answers with the object as created), and the answers to
    the [Get]s of the object of a name and namespace. *)
Record Server := {
  GetExecAccessTemplate : string -> string -> option error;
  Create : string -> ExecAccessRequest -> result ExecAccessRequest;
  Get : string -> string -> nat -> Ozctl.GetReply
}.

(** [api.ExecAccessRequest{}.Kind]: the kind of a request that has just
    been made in memory is not filled in. *)
Definition Kind : string := EmptyString.

(** The request the command makes in memory, before the server names
    it. *)
Definition newRequest (f : Flags) : ExecAccessRequest :=
  {| Name := EmptyString; Namespace := KubeNamespace f;
     CreationTimestamp := 0;
     Spec := {| TemplateName := template f; Duration := duration f;
                TargetPod := targetPod f |};
     Status := {| Conditions := []; PodName := EmptyString;
                  AccessMessage := EmptyString |} |}.

(** [Run]: the template is looked up, the request is created, and the
    command waits for it to be ready; [steps] bounds the turns of the
    wait. *)
Definition Run (IsReady : ExecAccessRequest -> bool)
               (parse : string -> result Time.Duration) (srv : Server)
               (steps : nat) (f : Flags) (p : Ozctl.Process)
  : Ozctl.Outcome * Ozctl.Process :=
  let p := Ozctl.print (Ozctl.CmdPrint ("Initiating Access Request..." ++ Ozctl.nl)) p in
  let p := Ozctl.print (Ozctl.CmdPrint ("  Template Name: " ++ template f ++ Ozctl.nl)) p in
  let p := Ozctl.print (Ozctl.CmdPrint ("  Request Name Prefix: "
                                          ++ requestNamePrefix f ++ Ozctl.nl)) p in
  let p := Ozctl.print (Ozctl.CmdPrint Ozctl.nl) p in
  let p := Ozctl.print (Ozctl.CmdPrint ("Verifying Template " ++ template f
                                          ++ " exists... ")) p in
  match GetExecAccessTemplate srv (template f) (KubeNamespace f) with
  | Some err =>
      (Ozctl.Exit 1,
       Ozctl.print
         (Ozctl.Stdout ("Error - Invalid --template name flag passed in:"
                          ++ Ozctl.nl ++ "  " ++ err ++ Ozctl.nl)) p)
  | None =>
      let p := Ozctl.print (Ozctl.CmdPrint ("it does!" ++ Ozctl.nl)) p in
      let req := newRequest f in
      let p := Ozctl.print (Ozctl.CmdPrint ("Creating " ++ Kind ++ "... ")) p in
      let '(req, p) :=
        match Create srv (requestNamePrefix f ++ "-") req with
        | Error err =>
            (req,
             Ozctl.print
               (Ozctl.Stdout ("Error - Creating " ++ Kind ++ " failed:"
                                ++ Ozctl.nl ++ "  " ++ err ++ Ozctl.nl)) p)
        | Ok created => (created, p)
        end in
      let p := Ozctl.print (Ozctl.CmdPrint (Name req ++ " created!" ++ Ozctl.nl)) p in
      let waitDuration :=
        match parse (waitTime f) with Ok d => d | Error _ => 0 end in
      Ozctl.waitForReady IsReady (Get srv (Name req) (Namespace req)) steps
        waitDuration req p
  end.

End Cmd.

(** ** Sample runs of the command *)

Module Demo.

Definition parse (s : string) : result Time.Duration :=
  if String.eqb s "10s" then Ok (10 * Time.Second)
  else if String.eqb s "-1h" then Ok (- (1 * Time.Hour))
  else Sample.parse s.

Definition ext : Collaborators :=
  {| ParseDuration := parse;
     GetPod := Sample.pick;
     CreateAccessCommand := CreateAccessCommand Sample.ext;
     generateResourceName := generateResourceName Sample.ext |}.

(** The world of the samples, with a server that refuses the writes
    the script [refusals] marks. *)
Definition refusing (refusals : list bool) (req : ExecAccessRequest) (age : Z)
  : World :=
  {| request := req; stored := Some req; roles := []; roleBindings := [];
     pods := pods (Sample.world req age); now := age; faults := refusals;
     calls := [] |}.

Definition flags : Cmd.Flags :=
  {| Cmd.template := "debug"; Cmd.targetPod := EmptyString;
     Cmd.duration := "1h"; Cmd.requestNamePrefix := "alice";
     Cmd.waitTime := "10s"; Cmd.KubeNamespace := "prod" |}.

(** A server that names the request created, and answers every [Get]
    at once with [answer]. *)
Definition server (lookup : option error)
                  (create : ExecAccessRequest -> result ExecAccessRequest)
                  (answer : result ExecAccessRequest) : Cmd.Server :=
  {| Cmd.GetExecAccessTemplate := fun _ _ => lookup;
     Cmd.Create := fun _ req => create req;
     Cmd.Get := fun _ _ _ => {| Ozctl.latency := 0; Ozctl.reply := answer |} |}.

(** A template whose default of five hours is above its maximum of
    two. *)
Definition generous : ExecAccessTemplate :=
  {| TemplateObjName := "generous";
     TemplateAccessConfig :=
       {| DefaultDuration := "5h"; MaxDuration := "2h";
          AccessCommand := "kubectl exec -ti";
          AllowedGroups := ["admins"] |} |}.

(** A world in which the in-memory request carries a condition that
    the request in the cluster does not. *)
Definition drifted : World :=
  with_stored (Some (Sample.requestFor "1h" [] ""))
    (Sample.world
       (Sample.requestFor "1h" [Sample.stillValid ConditionTrue] "") 0).

Definition pending : ExecAccessRequest :=
  Sample.requestFor "1h"
    [mkCondition ConditionAccessResourcesCreated ConditionFalse
       "targetPod not found alice-x7"] EmptyString.

Definition ready : ExecAccessRequest :=
  Sample.requestFor "1h"
    [mkCondition ConditionAccessResourcesReady ConditionTrue "ok"] "web-0".

(** A server slow to make the request ready: it is pending at the
    first three [Get]s and ready from the fourth. *)
Definition slowly (n : nat) : Ozctl.GetReply :=
  {| Ozctl.latency := 0;
     Ozctl.reply := if Nat.ltb n 3 then Ok pending else Ok ready |}.

End Demo.

(** ** The vocabulary of the further properties *)

(** From [w] to [w'] nothing but conditions has been written.  The
    in-memory request keeps its identity, its spec, the pod assigned
    and its access message; the permission objects, the pods and the
    clock are the same; the request is in the cluster as before, with
    its identity and its spec, and no deletion was asked for.  The
    status being written to the cluster as a whole, the pod and the
    access message of the stored request are each as they were there,
    or as the in-memory request has them. *)
Definition onlyConditionsTouched (w w' : World) : Prop :=
  Name (request w') = Name (request w)
  /\ Namespace (request w') = Namespace (request w)
  /\ CreationTimestamp (request w') = CreationTimestamp (request w)
  /\ Spec (request w') = Spec (request w)
  /\ PodName (Status (request w')) = PodName (Status (request w))
  /\ AccessMessage (Status (request w')) = AccessMessage (Status (request w))
  /\ roles w' = roles w
  /\ roleBindings w' = roleBindings w
  /\ pods w' = pods w
  /\ now w' = now w
  /\ (stored w' = None <-> stored w = None)
  /\ (forall s s',
        stored w = Some s -> stored w' = Some s' ->
        Name s' = Name s
        /\ Namespace s' = Namespace s
        /\ CreationTimestamp s' = CreationTimestamp s
        /\ Spec s' = Spec s
        /\ (PodName (Status s') = PodName (Status s)
            \/ PodName (Status s') = PodName (Status (request w)))
        /\ (AccessMessage (Status s') = AccessMessage (Status s)
            \/ AccessMessage (Status s') = AccessMessage (Status (request w))))
  /\ exists new, callsSince w w' new /\ existsb isDelete new = false.

(** A computation keeps the relation [R] between the world it starts
    in and the world it ends in. *)
Definition keeps {A} (R : World -> World -> Prop) (m : M A) : Prop :=
  forall w, R w (snd (m w)).

(** * Properties *)

(** Case analysis on a scrutinee that is not itself a case analysis. *)
Ltac break_match :=
  match goal with
  | |- context [match ?x with _ => _ end] =>
      lazymatch x with
      | context [match _ with _ => _ end] => fail
      | _ => destruct x eqn:?
      end
  end.

(** ** Conditions *)

Lemma FindStatusCondition_type cs t c :
  FindStatusCondition cs t = Some c -> CondType c = t.
Proof.
  induction cs as [|c0 cs IH]; simpl; [discriminate|].
  destruct (String.eqb (CondType c0) t) eqn:E.
  - intros [= <-]. now apply String.eqb_eq.
  - exact IH.
Qed.

(** A condition just written is the one found under its type. *)
Lemma Find_Set_same now cs c :
  exists c', FindStatusCondition (SetStatusCondition now cs c) (CondType c) = Some c'
             /\ CondStatus c' = CondStatus c
             /\ Reason c' = Reason c
             /\ Message c' = Message c.
Proof.
  induction cs as [|c0 cs IH]; simpl.
  - rewrite String.eqb_refl. eexists; repeat split; reflexivity.
  - destruct (String.eqb (CondType c0) (CondType c)) eqn:E; simpl.
    + rewrite String.eqb_refl. eexists; repeat split; reflexivity.
    + rewrite E. exact IH.
Qed.

(** Writing a condition leaves those of the other types alone. *)
Lemma Find_Set_other now cs c t :
  CondType c <> t ->
  FindStatusCondition (SetStatusCondition now cs c) t = FindStatusCondition cs t.
Proof.
  intros Hne. induction cs as [|c0 cs IH]; simpl.
  - destruct (String.eqb (CondType c) t) eqn:E; [|reflexivity].
    apply String.eqb_eq in E. contradiction.
  - destruct (String.eqb (CondType c0) (CondType c)) eqn:E; simpl.
    + apply String.eqb_eq in E.
      destruct (String.eqb (CondType c0) t) eqn:E0.
      * apply String.eqb_eq in E0. congruence.
      * destruct (String.eqb (CondType c) t) eqn:E1; [|reflexivity].
        apply String.eqb_eq in E1. contradiction.
    + destruct (String.eqb (CondType c0) t); [reflexivity | exact IH].
Qed.

Lemma hasCondition_setCondition now t s text r :
  hasCondition (setCondition now (mkCondition t s text) r) t s text.
Proof.
  destruct (Find_Set_same now (Conditions (Status r)) (mkCondition t s text))
    as (c' & Hf & Hs & Hr & Hm).
  exists c'. simpl in *. auto.
Qed.

Lemma hasCondition_setCondition_other now c r t s text :
  CondType c <> t ->
  hasCondition r t s text ->
  hasCondition (setCondition now c r) t s text.
Proof.
  intros Hne (c' & Hf & H). exists c'. split; [|exact H].
  simpl. rewrite Find_Set_other; assumption.
Qed.

(** The pod assigned, the access message and the rest of the request
    are not touched by the writing of a condition. *)
Lemma setCondition_keeps now c r :
  PodName (Status (setCondition now c r)) = PodName (Status r)
  /\ AccessMessage (Status (setCondition now c r)) = AccessMessage (Status r)
  /\ Name (setCondition now c r) = Name r
  /\ Namespace (setCondition now c r) = Namespace r
  /\ CreationTimestamp (setCondition now c r) = CreationTimestamp r
  /\ Spec (setCondition now c r) = Spec r.
Proof. repeat split. Qed.

(** ** The status helpers *)

(** What a status helper leaves behind: the condition is in the
    in-memory request whatever the server answers, and in the stored
    object as well when the write went through. *)
Lemma UpdateCondition_inv c w err w' :
  UpdateCondition c w = (err, w') ->
  request w' = setCondition (now w) c (request w)
  /\ calls w' = CallStatusUpdate (Status (request w')) :: CallSetCondition c :: calls w
  /\ roles w' = roles w /\ roleBindings w' = roleBindings w
  /\ pods w' = pods w /\ now w' = now w
  /\ faults w' = tl (faults w)
  /\ match err with
     | None => exists s, stored w = Some s
                         /\ stored w' = Some (with_status (Status (request w')) s)
     | Some _ => stored w' = stored w
     end.
Proof.
  unfold UpdateCondition, clientStatusUpdate, bind, record, getRequest, nextFault, ret.
  destruct w as [r st rs bs ps n fs cs]; simpl.
  destruct fs as [|[] fs]; simpl.
  - destruct st; intros [= <- <-]; simpl; repeat split; eauto.
  - intros [= <- <-]; simpl; repeat split.
  - destruct st; intros [= <- <-]; simpl; repeat split; eauto.
Qed.

(** ** The expiration check on the recorded condition *)

(** C10: a request with no [AccessStillValid] condition in its status
    is not expired: [isAccessExpired] returns [(false, nil)], and
    leaves the world as it was but for its two log lines; nothing is
    deleted. *)
Theorem isAccessExpired_missing_condition w :
  FindStatusCondition (Conditions (Status (request w))) ConditionAccessStillValid = None ->
  isAccessExpired w
  = ((false, None),
     with_calls (CallLog "Missing Condition AccessStillValid, skipping deletion"
                   :: CallLog "Checking if access has expired or not..."
                   :: calls w) w).
Proof.
  intros H. unfold isAccessExpired, bind, logInfo, record, getRequest, ret.
  simpl. rewrite H. reflexivity.
Qed.

Lemma isAccessExpired_missing_condition_witness :
  let w := Sample.world (Sample.requestFor "1h" [] "") 0 in
  fst (isAccessExpired w) = (false, None)
  /\ stored (snd (isAccessExpired w)) = stored w.
Proof.
  intros w.
  rewrite (isAccessExpired_missing_condition w eq_refl).
  split; reflexivity.
Defined.

(** C4: with an [AccessStillValid] condition of status [False],
    [isAccessExpired] asks for the deletion of the request and returns
    [true]; the request is gone from the cluster unless the server
    refuses the deletion, and then the refusal is returned with the
    [true].  With a condition of any other status it returns
    [(false, nil)] and deletes nothing. *)
Theorem isAccessExpired_by_condition w c :
  FindStatusCondition (Conditions (Status (request w))) ConditionAccessStillValid = Some c ->
  (CondStatus c = ConditionFalse ->
     let '((expired, err), w') := isAccessExpired w in
     expired = true
     /\ hd_error (calls w') = Some (CallDelete (Name (request w)))
     /\ request w' = request w
     /\ (err = None -> stored w <> None /\ stored w' = None)
     /\ (hd false (faults w) = false -> stored w' = None)
     /\ (hd false (faults w) = false -> stored w <> None -> err = None))
  /\ (CondStatus c <> ConditionFalse ->
        isAccessExpired w
        = ((false, None),
           with_calls (CallLog ("Found Condition AccessStillValid in state "
                                  ++ ConditionStatus_String (CondStatus c)
                                  ++ ", leaving alone")
                         :: CallLog "Checking if access has expired or not..."
                         :: calls w) w)).
Proof.
  intros H. split; intros Hs.
  - unfold isAccessExpired, DeleteResource, clientDelete, bind, logInfo, record,
      getRequest, nextFault, ret.
    simpl. rewrite H, Hs. simpl.
    destruct w as [r st rs bs ps n fs cs]; simpl.
    destruct fs as [|[] fs]; simpl; destruct st; simpl;
      repeat split; try discriminate; try reflexivity; try congruence.
  - unfold isAccessExpired, bind, logInfo, record, getRequest, ret.
    simpl. rewrite H.
    destruct (CondStatus c); try reflexivity. contradiction.
Qed.

Lemma isAccessExpired_by_condition_witness :
  let w := Sample.world
             (Sample.requestFor "1h" [Sample.stillValid ConditionFalse] "") 0 in
  let w2 := Sample.world
             (Sample.requestFor "1h" [Sample.stillValid ConditionTrue] "") 0 in
  (fst (fst (isAccessExpired w)) = true /\ stored (snd (isAccessExpired w)) = None)
  /\ (fst (isAccessExpired w2) = (false, None)
      /\ stored (snd (isAccessExpired w2)) = stored w2).
Proof.
  intros w w2. split.
  - pose proof (proj1 (isAccessExpired_by_condition w
                         (Sample.stillValid ConditionFalse) eq_refl) eq_refl) as H.
    destruct (isAccessExpired w) as [[expired err] w'].
    destruct H as (He & _ & _ & _ & Hgone & _).
    split; [exact He | exact (Hgone eq_refl)].
  - rewrite (proj2 (isAccessExpired_by_condition w2
                      (Sample.stillValid ConditionTrue) eq_refl)).
    + split; reflexivity.
    + discriminate.
Defined.

(** ** The duration policy *)

Lemma hasCondition_status r r' t s text :
  Status r = Status r' -> hasCondition r t s text -> hasCondition r' t s text.
Proof. unfold hasCondition. intros ->. trivial. Qed.

(** [verifyDuration], once the three durations have parsed. *)
Lemma verifyDuration_parsed ext builder w d def max :
  GetDuration ext (request w) = Ok d ->
  GetDefaultDuration ext (TemplateAccessConfig (GetTemplate builder)) = Ok def ->
  GetMaxDuration ext (TemplateAccessConfig (GetTemplate builder)) = Ok max ->
  verifyDuration ext builder w
  = let reasonStr := snd (chooseDuration d def max) in
    let (err, w1) :=
      SetRequestDurationsValid reasonStr
        (with_calls (CallLog reasonStr
                       :: CallLog "Beginning access request duration verification"
                       :: calls w) w) in
    match err with
    | Some e => (Some e, w1)
    | None =>
        if fst (chooseDuration d def max) <? now w1 - CreationTimestamp (request w1)
        then SetAccessNotValid w1 else SetAccessStillValid w1
    end.
Proof.
  intros Hd Hdef Hmax.
  unfold verifyDuration, bind, logInfo, record, getRequest, GetUptime, ret.
  simpl. rewrite Hd, Hdef, Hmax.
  destruct (chooseDuration d def max) as [D reasonStr]. simpl.
  destruct (SetRequestDurationsValid reasonStr _) as [[e|] w1]; [reflexivity|].
  destruct (D <? now w1 - CreationTimestamp (request w1)); reflexivity.
Qed.

Lemma DurationsValid_not_AccessStillValid :
  ConditionAccessStillValid <> ConditionRequestDurationsValid.
Proof. discriminate. Qed.

(** C1: with the three durations parsed, the duration [verifyDuration]
    resolves is the template's default when none (zero) is requested,
    the requested one when it is positive and at most the template's
    maximum, and the maximum when a requested duration exceeds it, each
    with the reason of its branch.  The request then carries
    [DurationsValid=True] with that reason; when [verifyDuration]
    returns no error the stored object carries it too, and
    [AccessStillValid] tells whether the age of the request exceeds
    the duration resolved. *)
Theorem verifyDuration_resolves ext builder w d def max :
  GetDuration ext (request w) = Ok d ->
  GetDefaultDuration ext (TemplateAccessConfig (GetTemplate builder)) = Ok def ->
  GetMaxDuration ext (TemplateAccessConfig (GetTemplate builder)) = Ok max ->
  let resolved := fst (chooseDuration d def max) in
  let reason := snd (chooseDuration d def max) in
  (d = 0 ->
     resolved = def
     /\ reason = "Access request duration defaulting to template duration time ("
                   ++ Time.Duration_String def ++ ")")
  /\ (0 < d <= max ->
        resolved = d
        /\ reason = "Access requested custom duration ("
                      ++ Time.Duration_String d ++ ")")
  /\ (d <> 0 -> max < d ->
        resolved = max
        /\ reason = "Access requested duration (" ++ Time.Duration_String d
                      ++ ") larger than template maximum duration ("
                      ++ Time.Duration_String max ++ ")")
  /\ let '(err, w') := verifyDuration ext builder w in
     hasCondition (request w') ConditionRequestDurationsValid ConditionTrue reason
     /\ (err = None ->
           (exists s, stored w' = Some s
                      /\ hasCondition s ConditionRequestDurationsValid
                           ConditionTrue reason)
           /\ exists text,
               hasCondition (request w') ConditionAccessStillValid
                 (if resolved <? now w - CreationTimestamp (request w)
                  then ConditionFalse else ConditionTrue) text).
Proof.
  intros Hd Hdef Hmax resolved reason.
  split; [|split; [|split]].
  - intros ->. subst resolved reason. unfold chooseDuration. simpl. auto.
  - intros [Hpos Hle]. subst resolved reason. unfold chooseDuration.
    destruct (d =? 0) eqn:E0; [lia|].
    destruct (d <=? max) eqn:E1; [|lia]. simpl. auto.
  - intros Hnz Hgt. subst resolved reason. unfold chooseDuration.
    destruct (d =? 0) eqn:E0; [lia|].
    destruct (d <=? max) eqn:E1; [lia|]. simpl. auto.
  - rewrite (verifyDuration_parsed ext builder w d def max Hd Hdef Hmax).
    fold resolved reason. cbv zeta.
    unfold SetRequestDurationsValid.
    destruct (UpdateCondition _ _) as [err1 w1] eqn:E1.
    apply UpdateCondition_inv in E1.
    destruct E1 as (Hr1 & _ & _ & _ & _ & Hn1 & _ & _).
    simpl in Hr1, Hn1.
    assert (H1 : hasCondition (request w1) ConditionRequestDurationsValid
                   ConditionTrue reason).
    { rewrite Hr1. apply hasCondition_setCondition. }
    destruct err1 as [e|]; [split; [exact H1 | discriminate]|].
    assert (Hage : now w1 - CreationTimestamp (request w1)
                   = now w - CreationTimestamp (request w)).
    { rewrite Hn1, Hr1. reflexivity. }
    rewrite Hage.
    unfold SetAccessNotValid, SetAccessStillValid.
    destruct (resolved <? now w - CreationTimestamp (request w));
      destruct (UpdateCondition _ w1) as [err2 w2] eqn:E2;
      apply UpdateCondition_inv in E2;
      destruct E2 as (Hr2 & _ & _ & _ & _ & _ & _ & Hst2);
      (assert (H2 : hasCondition (request w2) ConditionRequestDurationsValid
                      ConditionTrue reason)
        by (rewrite Hr2; apply hasCondition_setCondition_other;
            [exact DurationsValid_not_AccessStillValid | exact H1]));
      (split; [exact H2|]); intros ->;
      destruct Hst2 as (s & _ & Hs2);
      (split;
       [ exists (with_status (Status (request w2)) s); split; [exact Hs2|];
         apply (hasCondition_status (request w2)); [reflexivity | exact H2]
       | eexists; rewrite Hr2; apply hasCondition_setCondition ]).
Qed.

Lemma verifyDuration_resolves_witness :
  let builder := ExecAccessBuilder Sample.ext Sample.template in
  let w := Sample.world (Sample.requestFor "1h" [] "") (31 * Time.Minute) in
  fst (chooseDuration (1 * Time.Hour) (30 * Time.Minute) (2 * Time.Hour))
  = 1 * Time.Hour
  /\ hasCondition (request (snd (verifyDuration Sample.ext builder w)))
       ConditionRequestDurationsValid ConditionTrue
       "Access requested custom duration (1h0m0s)".
Proof.
  intros builder w.
  pose proof (verifyDuration_resolves Sample.ext builder w
                (1 * Time.Hour) (30 * Time.Minute) (2 * Time.Hour)
                eq_refl eq_refl eq_refl) as H.
  cbv zeta in H. destruct H as (_ & Hcustom & _ & Hrun).
  split.
  - apply Hcustom. split; reflexivity || discriminate.
  - destruct (verifyDuration Sample.ext builder w) as [err w'].
    exact (proj1 Hrun).
Defined.

(** C5: when a duration string does not parse, be it [spec.duration]
    of the request or [spec.defaultDuration] or [spec.maxDuration] of
    the template, [verifyDuration] returns the parser's error, leaves
    [DurationsValid=False] with a message that names the field, and
    updates no other condition; the pass stops on that error. *)
Theorem verifyDuration_unparsable ext builder w :
  (forall e,
      GetDuration ext (request w) = Error e ->
      rejectsDurations ext builder w ("spec.duration error: " ++ e) e)
  /\ (forall d e,
        GetDuration ext (request w) = Ok d ->
        GetDefaultDuration ext (TemplateAccessConfig (GetTemplate builder)) = Error e ->
        rejectsDurations ext builder w
          ("Template Error, spec.defaultDuration error: " ++ e) e)
  /\ (forall d def e,
        GetDuration ext (request w) = Ok d ->
        GetDefaultDuration ext (TemplateAccessConfig (GetTemplate builder)) = Ok def ->
        GetMaxDuration ext (TemplateAccessConfig (GetTemplate builder)) = Error e ->
        rejectsDurations ext builder w
          ("Template Error, spec.maxDuration error: " ++ e) e).
Proof.
  assert (Hrun : forall msg e,
    verifyDuration ext builder w
    = (let (_, w1) :=
         SetRequestDurationsNotValid msg
           (with_calls (CallLog "Beginning access request duration verification"
                          :: calls w) w) in
       (Some e, w1)) ->
    rejectsDurations ext builder w msg e).
  { intros msg e Hv. unfold rejectsDurations, checkDuration, bind.
    rewrite Hv. unfold SetRequestDurationsNotValid.
    destruct (UpdateCondition _ _) as [err1 w1] eqn:E1.
    apply UpdateCondition_inv in E1.
    destruct E1 as (Hr1 & Hc1 & _).
    simpl in Hr1, Hc1.
    split; [reflexivity|]. split; [|split].
    - rewrite Hr1. apply hasCondition_setCondition.
    - eexists. exact Hc1.
    - reflexivity. }
  split; [|split].
  - intros e He. apply Hrun.
    unfold verifyDuration, bind, logInfo, record, getRequest, ret.
    simpl. rewrite He. reflexivity.
  - intros d e Hd He. apply Hrun.
    unfold verifyDuration, bind, logInfo, record, getRequest, ret.
    simpl. rewrite Hd, He. reflexivity.
  - intros d def e Hd Hdef He. apply Hrun.
    unfold verifyDuration, bind, logInfo, record, getRequest, ret.
    simpl. rewrite Hd, Hdef, He. reflexivity.
Qed.

Lemma verifyDuration_unparsable_witness :
  let builder := ExecAccessBuilder Sample.ext Sample.template in
  let w := Sample.world (Sample.requestFor "soon" [] "") 0 in
  rejectsDurations Sample.ext builder w
    "spec.duration error: time: invalid duration soon"
    "time: invalid duration soon".
Proof.
  intros builder w.
  exact (proj1 (verifyDuration_unparsable Sample.ext builder w)
               "time: invalid duration soon" eq_refl).
Defined.

(** C8, as the code has it: when a requested duration exceeds the
    template's maximum, the duration resolved is the maximum, and the
    reason recorded with [DurationsValid=True] is the sentence
    "Access requested duration (d) larger than template maximum
    duration (max)" with the two durations in Go's notation. *)
Theorem verifyDuration_clamps ext builder w d def max :
  GetDuration ext (request w) = Ok d ->
  GetDefaultDuration ext (TemplateAccessConfig (GetTemplate builder)) = Ok def ->
  GetMaxDuration ext (TemplateAccessConfig (GetTemplate builder)) = Ok max ->
  d <> 0 -> max < d ->
  fst (chooseDuration d def max) = max
  /\ hasCondition (request (snd (verifyDuration ext builder w)))
       ConditionRequestDurationsValid ConditionTrue
       ("Access requested duration (" ++ Time.Duration_String d
          ++ ") larger than template maximum duration ("
          ++ Time.Duration_String max ++ ")").
Proof.
  intros Hd Hdef Hmax Hnz Hgt.
  assert (Hc : chooseDuration d def max
               = (max, "Access requested duration (" ++ Time.Duration_String d
                         ++ ") larger than template maximum duration ("
                         ++ Time.Duration_String max ++ ")")).
  { unfold chooseDuration.
    destruct (d =? 0) eqn:E0; [lia|].
    destruct (d <=? max) eqn:E1; [lia | reflexivity]. }
  split; [rewrite Hc; reflexivity|].
  rewrite (verifyDuration_parsed ext builder w d def max Hd Hdef Hmax).
  rewrite Hc. cbv zeta. simpl fst. simpl snd.
  unfold SetRequestDurationsValid.
  destruct (UpdateCondition _ _) as [err1 w1] eqn:E1.
  apply UpdateCondition_inv in E1. destruct E1 as (Hr1 & _).
  simpl in Hr1.
  assert (H1 : hasCondition (request w1) ConditionRequestDurationsValid ConditionTrue
                 ("Access requested duration (" ++ Time.Duration_String d
                    ++ ") larger than template maximum duration ("
                    ++ Time.Duration_String max ++ ")")).
  { rewrite Hr1. apply hasCondition_setCondition. }
  destruct err1 as [e|]; [exact H1|].
  unfold SetAccessNotValid, SetAccessStillValid.
  destruct (max <? now w1 - CreationTimestamp (request w1));
    destruct (UpdateCondition _ w1) as [err2 w2] eqn:E2;
    apply UpdateCondition_inv in E2; destruct E2 as (Hr2 & _);
    simpl; rewrite Hr2; apply hasCondition_setCondition_other;
    solve [exact DurationsValid_not_AccessStillValid | exact H1].
Qed.

Lemma verifyDuration_clamps_witness :
  let builder := ExecAccessBuilder Sample.ext Sample.template in
  let w := Sample.world (Sample.requestFor "5h" [] "") 0 in
  fst (chooseDuration (5 * Time.Hour) (30 * Time.Minute) (2 * Time.Hour))
  = 2 * Time.Hour
  /\ hasCondition (request (snd (verifyDuration Sample.ext builder w)))
       ConditionRequestDurationsValid ConditionTrue
       "Access requested duration (5h0m0s) larger than template maximum duration (2h0m0s)".
Proof.
  intros builder w.
  apply (verifyDuration_clamps Sample.ext builder w
           (5 * Time.Hour) (30 * Time.Minute) (2 * Time.Hour));
    reflexivity || discriminate.
Defined.

(** C8, as it is stated, fails for the request of five hours against
    the maximum of two: the reason recorded does not speak of clamping,
    and uses none of the words of the promised vocabulary. *)
Lemma clamped_reason_outside_vocabulary :
  let builder := ExecAccessBuilder Sample.ext Sample.template in
  let w := Sample.world (Sample.requestFor "5h" [] "") 0 in
  let w' := snd (verifyDuration Sample.ext builder w) in
  ~ (fst (chooseDuration (5 * Time.Hour) (30 * Time.Minute) (2 * Time.Hour))
     = 2 * Time.Hour
     /\ exists c,
         FindStatusCondition (Conditions (Status (request w')))
           ConditionRequestDurationsValid = Some c
         /\ (contains "clamp" (Reason c) = true
             \/ inReasonVocabulary (Reason c) = true)).
Proof.
  intros builder w w' (_ & c & Hf & Hc).
  vm_compute in Hf. injection Hf as <-.
  vm_compute in Hc. destruct Hc; discriminate.
Qed.

(** ** Provisioning *)


(** What [verifyAccessResourcesBuilt] makes of the builder's answer. *)
Lemma verifyAccessResourcesBuilt_run builder w :
  verifyAccessResourcesBuilt builder w
  = let '((statusString, gerr), w1) :=
      GenerateAccessResources builder
        (with_calls (CallLog "Verifying that access resources are built"
                       :: calls w) w) in
    match gerr with
    | Some err =>
        let (_, w2) := SetAccessResourcesNotCreated err w1 in (Some err, w2)
    | None => SetAccessResourcesCreated statusString w1
    end.
Proof.
  unfold verifyAccessResourcesBuilt, bind, logInfo, record, ret. simpl.
  destruct (GenerateAccessResources builder _) as [[statusString [err|]] w1];
    reflexivity.
Qed.



(** ** The target identity, once assigned *)

Lemma preserves_ret {A} (I : World -> Prop) (a : A) : preserves I (ret a).
Proof. intros w H. exact H. Qed.

Lemma preserves_bind {A B} (I : World -> Prop) (m : M A) (k : A -> M B) :
  preserves I m -> (forall a, preserves I (k a)) -> preserves I (bind m k).
Proof.
  intros Hm Hk w H. unfold bind.
  specialize (Hm w H). destruct (m w) as [a w1]. exact (Hk a w1 Hm).
Qed.

Section Assigned.

Variable ext : Collaborators.
Variable tmpl : ExecAccessTemplate.
Variable p : string.
Variable rs : list Role.
Variable bs : list RoleBinding.
Hypothesis assigned : p <> "".

Let I := assignedTo p rs bs.

Lemma assigned_record c : preserves I (record c).
Proof. intros w H. exact H. Qed.

Lemma assigned_getRequest : preserves I getRequest.
Proof. intros w H. exact H. Qed.

Lemma assigned_UpdateCondition c : preserves I (UpdateCondition c).
Proof.
  intros w (Hp & Hs & Hr & Hb).
  destruct (UpdateCondition c w) as [err w'] eqn:E.
  apply UpdateCondition_inv in E.
  destruct E as (Hr' & _ & Hroles & Hbind & _ & _ & _ & Hst).
  simpl. unfold I, assignedTo.
  assert (Hp' : PodName (Status (request w')) = p) by (rewrite Hr'; exact Hp).
  repeat split; try congruence.
  intros s' Hs'. destruct err.
  - apply Hs. congruence.
  - destruct Hst as (s & _ & Hw'). rewrite Hw' in Hs'.
    injection Hs' as <-. exact Hp'.
Qed.

Lemma assigned_clientDelete : preserves I clientDelete.
Proof.
  intros w (Hp & Hs & Hr & Hb).
  unfold clientDelete, bind, record, getRequest, nextFault, ret.
  destruct w as [r st rs0 bs0 ps n fs cs]; simpl in *.
  destruct fs as [|[] fs]; simpl; destruct st; simpl;
    unfold I, assignedTo; simpl; repeat split; auto; discriminate.
Qed.

Lemma assigned_isAccessExpired : preserves I isAccessExpired.
Proof.
  unfold isAccessExpired, logInfo, DeleteResource.
  apply preserves_bind; [apply assigned_record | intros _].
  apply preserves_bind; [apply assigned_getRequest | intros req].
  destruct (FindStatusCondition _ _) as [c|].
  - destruct (ConditionStatus_eqb _ _).
    + apply preserves_bind; [apply assigned_record | intros _].
      apply preserves_bind; [apply assigned_clientDelete | intros err].
      apply preserves_ret.
    + apply preserves_bind; [apply assigned_record | intros _].
      apply preserves_ret.
  - apply preserves_bind; [apply assigned_record | intros _].
    apply preserves_ret.
Qed.

Lemma assigned_verifyDuration builder : preserves I (verifyDuration ext builder).
Proof.
  unfold verifyDuration, logInfo, SetRequestDurationsNotValid,
    SetRequestDurationsValid, SetAccessNotValid, SetAccessStillValid.
  apply preserves_bind; [apply assigned_record | intros _].
  apply preserves_bind; [apply assigned_getRequest | intros req].
  destruct (GetDuration ext req) as [d|e];
    [|apply preserves_bind;
      [apply assigned_UpdateCondition | intros _; apply preserves_ret]].
  destruct (GetDefaultDuration ext _) as [def|e];
    [|apply preserves_bind;
      [apply assigned_UpdateCondition | intros _; apply preserves_ret]].
  destruct (GetMaxDuration ext _) as [max|e];
    [|apply preserves_bind;
      [apply assigned_UpdateCondition | intros _; apply preserves_ret]].
  destruct (chooseDuration d def max) as [D reasonStr].
  apply preserves_bind; [apply assigned_record | intros _].
  apply preserves_bind; [apply assigned_UpdateCondition | intros err].
  destruct err; [apply preserves_ret|].
  apply preserves_bind; [intros w H; exact H | intros uptime].
  destruct (D <? uptime); apply assigned_UpdateCondition.
Qed.

(** With a pod assigned, the builder returns at once. *)
Lemma CreateAccessResources_assigned w :
  PodName (Status (request w)) <> "" ->
  CreateAccessResources ext tmpl w
  = (("Pod already assigned -" ++ Name (request w), None), w).
Proof.
  intros Hp. unfold CreateAccessResources, bind, getRequest, ret.
  destruct (String.eqb (PodName (Status (request w))) "") eqn:E.
  - apply String.eqb_eq in E. contradiction.
  - reflexivity.
Qed.

Lemma assigned_CreateAccessResources :
  preserves I (CreateAccessResources ext tmpl).
Proof.
  intros w H. rewrite CreateAccessResources_assigned; [exact H|].
  destruct H as (Hp & _). rewrite Hp. exact assigned.
Qed.

Lemma assigned_verifyAccessResourcesBuilt :
  preserves I (verifyAccessResourcesBuilt (ExecAccessBuilder ext tmpl)).
Proof.
  unfold verifyAccessResourcesBuilt, logInfo, SetAccessResourcesNotCreated,
    SetAccessResourcesCreated.
  apply preserves_bind; [apply assigned_record | intros _].
  apply preserves_bind; [apply assigned_CreateAccessResources | intros [s [e|]]].
  - apply preserves_bind;
      [apply assigned_UpdateCondition | intros _; apply preserves_ret].
  - apply assigned_UpdateCondition.
Qed.

Lemma assigned_guard continue :
  preserves I continue -> preserves I (guard continue).
Proof.
  intros Hc. unfold guard.
  apply preserves_bind; [apply assigned_isAccessExpired | intros [[] [e|]]];
    solve [apply preserves_ret | exact Hc].
Qed.

Lemma assigned_reconcile :
  preserves I (reconcile ext (ExecAccessBuilder ext tmpl)).
Proof.
  unfold reconcile, checkDuration, provision. simpl VerifyAccessResources.
  assert (Hrefetch : preserves I refetch).
  { intros w (Hp & Hs & Hr & Hb). unfold refetch.
    destruct (stored w) as [s|] eqn:E; simpl; unfold I, assignedTo; simpl;
      repeat split; auto; rewrite E; exact Hs. }
  apply preserves_bind; [exact Hrefetch | intros [e|]];
    [apply preserves_ret|].
  apply assigned_guard.
  apply preserves_bind; [apply assigned_verifyDuration | intros [e|]];
    [apply preserves_ret|].
  apply assigned_guard.
  apply preserves_bind; [apply assigned_verifyAccessResourcesBuilt | intros [e|]];
    apply preserves_ret.
Qed.

End Assigned.

Lemma iter_fixed {A} (f : A -> A) (a : A) n : f a = a -> Nat.iter n f a = a.
Proof. intros H. induction n as [|n IH]; simpl; [reflexivity|]. now rewrite IH. Qed.

(** C3: for a request whose status names a pod already,
    [CreateAccessResources] returns at once and without an error the
    message "Pod already assigned" with the request's name, and leaves
    the world as it is: no target is resolved, nothing is created, the
    pod assigned stays; so does any number of further invocations, and
    no pass of the reconciler changes the pod assigned, in memory or in
    the cluster, nor the permission objects. *)
Theorem CreateAccessResources_idempotent ext tmpl w :
  PodName (Status (request w)) <> "" ->
  CreateAccessResources ext tmpl w
  = (("Pod already assigned -" ++ Name (request w), None), w)
  /\ (forall n,
        Nat.iter n (fun w => snd (CreateAccessResources ext tmpl w)) w = w)
  /\ (forall rs bs,
        assignedTo (PodName (Status (request w))) rs bs w ->
        forall passes,
          assignedTo (PodName (Status (request w))) rs bs
            (Nat.iter passes
               (fun w => snd (reconcile ext (ExecAccessBuilder ext tmpl) w)) w)).
Proof.
  intros Hp. split; [|split].
  - apply CreateAccessResources_assigned. exact Hp.
  - intros n. apply iter_fixed.
    rewrite CreateAccessResources_assigned by exact Hp. reflexivity.
  - intros rs bs H passes. induction passes as [|n IH]; simpl; [exact H|].
    apply (assigned_reconcile ext tmpl _ rs bs Hp). exact IH.
Qed.

Lemma CreateAccessResources_idempotent_witness :
  let w := Sample.world (Sample.requestFor "1h" [] "web-1") 0 in
  CreateAccessResources Sample.ext Sample.template w
  = (("Pod already assigned -alice-x7", None), w).
Proof.
  intros w.
  refine (proj1 (CreateAccessResources_idempotent Sample.ext Sample.template w _)).
  discriminate.
Defined.

(** ** The permissions granted *)

Lemma strings_eqb_refl l : strings_eqb l l = true.
Proof. unfold strings_eqb. destruct (list_eq_dec string_dec l l); congruence. Qed.

Lemma accessRules_leastPrivilege pod :
  forallb (leastPrivilege (PodObjName pod)) (accessRules pod) = true.
Proof.
  unfold accessRules, leastPrivilege. simpl.
  rewrite !strings_eqb_refl. reflexivity.
Qed.

(** The roles after [CreateAccessResources]: those there were, and at
    most one more, with the rules for the pod selected. *)
Lemma CreateAccessResources_roles ext tmpl w :
  let '((_, err), w') := CreateAccessResources ext tmpl w in
  roles w' = roles w
  \/ exists pod,
      GetPod ext (pods w) (request w) tmpl = (Some pod, None)
      /\ roles w'
         = {| RoleName := generateResourceName ext (Namespace (request w))
                            (Name (request w));
              Rules := accessRules pod |} :: roles w
      /\ (err = None -> PodName (Status (request w')) = PodObjName pod).
Proof.
  unfold CreateAccessResources, internalGetPod, CreateRole, CreateRoleBinding,
    SetAccessMessage, SetPodName, clientStatusUpdate, bind, record, getRequest,
    nextFault, ret, with_calls, with_faults, with_roles, with_roleBindings,
    with_stored, with_request.
  destruct w as [r st rs bs ps n fs cs]; simpl.
  destruct (String.eqb (PodName (Status r)) "") eqn:Ep; simpl; [|left; reflexivity].
  destruct (GetPod ext ps r tmpl) as [[pod|] [e|]] eqn:Eg; simpl;
    try (left; reflexivity).
  repeat (break_match; simpl);
    first [ left; reflexivity
          | right; exists pod; repeat split;
            first [discriminate | reflexivity | congruence] ].
Qed.

(** A first invocation that succeeds assigns the pod selected; the
    second then reports the assignment and changes nothing, so that
    no permission object is made twice. *)
Lemma CreateAccessResources_assigns ext tmpl w :
  PodName (Status (request w)) = "" ->
  let '((_, err), w') := CreateAccessResources ext tmpl w in
  err = None ->
  Name (request w') = Name (request w)
  /\ exists pod,
      GetPod ext (pods w) (request w) tmpl = (Some pod, None)
      /\ PodName (Status (request w')) = PodObjName pod.
Proof.
  intros Hp.
  unfold CreateAccessResources, internalGetPod, CreateRole, CreateRoleBinding,
    SetAccessMessage, SetPodName, clientStatusUpdate, bind, record, getRequest,
    nextFault, ret, with_calls, with_faults, with_roles, with_roleBindings,
    with_stored, with_request.
  destruct w as [r st rs bs ps n fs cs]; simpl in *.
  rewrite Hp. simpl.
  destruct (GetPod ext ps r tmpl) as [[pod|] [e|]] eqn:Eg; simpl;
    try discriminate.
  repeat (break_match; simpl); try discriminate;
    intros _; split; try reflexivity; exists pod; split; reflexivity.
Qed.

Lemma CreateAccessResources_twice ext tmpl w :
  PodName (Status (request w)) = "" ->
  let '((_, err), w') := CreateAccessResources ext tmpl w in
  err = None ->
  PodName (Status (request w')) <> "" ->
  CreateAccessResources ext tmpl w'
  = (("Pod already assigned -" ++ Name (request w), None), w').
Proof.
  intros Hp.
  pose proof (CreateAccessResources_assigns ext tmpl w Hp) as H.
  destruct (CreateAccessResources ext tmpl w) as [[msg err] w'].
  intros He Hne. destruct (H He) as (Hname & _).
  rewrite <- Hname.
  unfold CreateAccessResources, bind, getRequest, ret.
  destruct (String.eqb (PodName (Status (request w'))) "") eqn:E.
  - apply String.eqb_eq in E. contradiction.
  - reflexivity.
Qed.

(** C6: a role that [CreateAccessResources] creates has the two rules
    written for the pod selected: reading and watching on pods, the
    handling of sessions on pods/exec, and as resource names of each
    rule that one pod's name and nothing else; when the builder reports
    success, it is the pod assigned to the request. *)
Theorem created_role_least_privilege ext tmpl w role :
  In role (roles (snd (CreateAccessResources ext tmpl w))) ->
  ~ In role (roles w) ->
  exists targetPod,
    GetPod ext (pods w) (request w) tmpl = (Some targetPod, None)
    /\ Rules role = accessRules targetPod
    /\ forallb (leastPrivilege (PodObjName targetPod)) (Rules role) = true
    /\ Forall (fun rule => ResourceNames rule = [PodObjName targetPod]
                           /\ ~ In "*" (Verbs rule)
                           /\ ~ In "*" (Resources rule)) (Rules role)
    /\ (snd (fst (CreateAccessResources ext tmpl w)) = None ->
        PodName (Status (request (snd (CreateAccessResources ext tmpl w))))
        = PodObjName targetPod).
Proof.
  intros Hin Hnew.
  pose proof (CreateAccessResources_roles ext tmpl w) as H.
  destruct (CreateAccessResources ext tmpl w) as [[msg err] w']. simpl in *.
  destruct H as [Hsame | (pod & Hg & Hroles & Hp)].
  - rewrite Hsame in Hin. contradiction.
  - rewrite Hroles in Hin. destruct Hin as [<- | Hin]; [|contradiction].
    exists pod. simpl. repeat split; try assumption.
    + apply accessRules_leastPrivilege.
    + repeat constructor; simpl; intuition discriminate.
Qed.

Lemma created_role_least_privilege_witness :
  let w := Sample.world (Sample.requestFor "1h" [] "") 0 in
  let role := {| RoleName := "prod-alice-x7";
                 Rules := accessRules {| PodObjName := "web-0";
                                         PodObjNamespace := "prod" |} |} in
  exists targetPod,
    PodObjName targetPod = "web-0"
    /\ forallb (leastPrivilege (PodObjName targetPod)) (Rules role) = true.
Proof.
  intros w role.
  destruct (created_role_least_privilege Sample.ext Sample.template w role)
    as (pod & Hg & _ & Hlp & _).
  - left. reflexivity.
  - intros [].
  - exists pod. split; [|exact Hlp].
    injection Hg as <-. reflexivity.
Defined.

(** ** Expiry within the pass *)

(** A status helper with an obliging server and the object in the
    cluster. *)
Lemma UpdateCondition_obliging_run c w s :
  serverObliging w -> stored w = Some s ->
  UpdateCondition c w
  = (None,
     let r := setCondition (now w) c (request w) in
     {| request := r; stored := Some (with_status (Status r) s);
        roles := roles w; roleBindings := roleBindings w; pods := pods w;
        now := now w; faults := tl (faults w);
        calls := CallStatusUpdate (Status r) :: CallSetCondition c :: calls w |}).
Proof.
  unfold serverObliging, UpdateCondition, clientStatusUpdate, bind, record,
    getRequest, nextFault, ret.
  destruct w as [r st rs bs ps n fs cs]; simpl.
  intros Hob ->. destruct Hob as [|f fs -> Hob]; reflexivity.
Qed.

(** The deletion with an obliging server and the object in the
    cluster. *)
Lemma clientDelete_obliging_run w s :
  serverObliging w -> stored w = Some s ->
  clientDelete w
  = (None,
     {| request := request w; stored := None;
        roles := roles w; roleBindings := roleBindings w; pods := pods w;
        now := now w; faults := tl (faults w);
        calls := CallDelete (Name (request w)) :: calls w |}).
Proof.
  unfold serverObliging, clientDelete, bind, record, getRequest, nextFault, ret.
  destruct w as [r st rs bs ps n fs cs]; simpl.
  intros Hob ->. destruct Hob as [|f fs -> Hob]; reflexivity.
Qed.

Lemma obliging_tl (fs : list bool) :
  Forall (fun fault => fault = false) fs ->
  Forall (fun fault => fault = false) (tl fs).
Proof. intros [|f l _ H]; [constructor | exact H]. Qed.

(** [isAccessExpired] on a condition of status [False], and on one of
    another status. *)
Lemma isAccessExpired_expired_run w c :
  FindStatusCondition (Conditions (Status (request w))) ConditionAccessStillValid = Some c ->
  CondStatus c = ConditionFalse ->
  isAccessExpired w
  = let (err, w1) :=
      clientDelete
        (with_calls
           (CallLog "Found Condition AccessStillValid in state False, terminating rqeuest"
              :: CallLog "Checking if access has expired or not..."
              :: calls w) w) in
    ((true, err), w1).
Proof.
  intros Hf Hs.
  unfold isAccessExpired, DeleteResource, bind, logInfo, record, getRequest, ret.
  simpl. rewrite Hf, Hs. simpl.
  destruct (clientDelete _) as [err w1]. reflexivity.
Qed.

Lemma isAccessExpired_valid_run w c :
  FindStatusCondition (Conditions (Status (request w))) ConditionAccessStillValid = Some c ->
  CondStatus c <> ConditionFalse ->
  isAccessExpired w
  = ((false, None),
     with_calls (CallLog ("Found Condition AccessStillValid in state "
                            ++ ConditionStatus_String (CondStatus c)
                            ++ ", leaving alone")
                   :: CallLog "Checking if access has expired or not..."
                   :: calls w) w).
Proof.
  intros Hf Hs.
  unfold isAccessExpired, bind, logInfo, record, getRequest, ret.
  simpl. rewrite Hf.
  destruct (CondStatus c); try reflexivity. contradiction.
Qed.

Lemma isAccessExpired_missing_run w :
  FindStatusCondition (Conditions (Status (request w))) ConditionAccessStillValid = None ->
  isAccessExpired w
  = ((false, None),
     with_calls (CallLog "Missing Condition AccessStillValid, skipping deletion"
                   :: CallLog "Checking if access has expired or not..."
                   :: calls w) w).
Proof.
  intros H. unfold isAccessExpired, bind, logInfo, record, getRequest, ret.
  simpl. rewrite H. reflexivity.
Qed.

(** The expiration check of an expired request, with an obliging
    server: the whole of it. *)
Lemma checkDuration_expired ext builder w d def max s continue :
  GetDuration ext (request w) = Ok d ->
  GetDefaultDuration ext (TemplateAccessConfig (GetTemplate builder)) = Ok def ->
  GetMaxDuration ext (TemplateAccessConfig (GetTemplate builder)) = Ok max ->
  fst (chooseDuration d def max) < now w - CreationTimestamp (request w) ->
  serverObliging w -> stored w = Some s ->
  let reason := snd (chooseDuration d def max) in
  let valid := mkCondition ConditionRequestDurationsValid ConditionTrue reason in
  let expired := mkCondition ConditionAccessStillValid ConditionFalse "expired" in
  let r1 := setCondition (now w) valid (request w) in
  let r2 := setCondition (now w) expired r1 in
  checkDuration ext builder continue w
  = (PassDeleted,
     {| request := r2; stored := None;
        roles := roles w; roleBindings := roleBindings w; pods := pods w;
        now := now w; faults := tl (tl (tl (faults w)));
        calls :=
          CallDelete (Name (request w))
            :: CallLog "Found Condition AccessStillValid in state False, terminating rqeuest"
            :: CallLog "Checking if access has expired or not..."
            :: CallStatusUpdate (Status r2)
            :: CallSetCondition expired
            :: CallStatusUpdate (Status r1)
            :: CallSetCondition valid
            :: CallLog reason
            :: CallLog "Beginning access request duration verification"
            :: calls w |}).
Proof.
  intros Hd Hdef Hmax Hage Hob Hst reason valid expired r1 r2.
  unfold checkDuration, guard, bind.
  rewrite (verifyDuration_parsed ext builder w d def max Hd Hdef Hmax).
  fold reason. cbv zeta.
  unfold SetRequestDurationsValid. fold valid.
  rewrite (UpdateCondition_obliging_run valid _ s) by assumption.
  cbv zeta. simpl now. simpl request. simpl faults. fold r1.
  replace (CreationTimestamp r1) with (CreationTimestamp (request w)) by reflexivity.
  apply Z.ltb_lt in Hage. rewrite Hage.
  unfold SetAccessNotValid. fold expired.
  rewrite (UpdateCondition_obliging_run expired _ (with_status (Status r1) s))
    by (reflexivity || (apply obliging_tl; exact Hob)).
  cbv zeta. simpl now. simpl request. simpl faults. fold r2.
  destruct (Find_Set_same (now w) (Conditions (Status r1)) expired)
    as (c & Hf & Hs & _).
  rewrite (isAccessExpired_expired_run _ c) by assumption.
  rewrite (clientDelete_obliging_run _ (with_status (Status r2) (with_status (Status r1) s)))
    by (reflexivity || (do 2 apply obliging_tl; exact Hob)).
  reflexivity.
Qed.

(** A status helper returns an error only when its write does not go
    through: the server refuses it, or the request is gone from the
    cluster. *)
Lemma UpdateCondition_refused c w e :
  fst (UpdateCondition c w) = Some e ->
  (e = errAPI \/ e = errNotFound)
  /\ ~ (serverObliging w /\ stored w <> None).
Proof.
  unfold serverObliging, UpdateCondition, clientStatusUpdate, bind, record,
    getRequest, nextFault, ret.
  destruct w as [r st rs bs ps n fs cs]; simpl.
  destruct fs as [|[] fs]; simpl.
  - destruct st; simpl; [discriminate|].
    intros [= <-]. split; [auto|]. intros [_ H]. apply H. reflexivity.
  - intros [= <-]. split; [auto|]. intros [H _].
    apply Forall_inv in H. discriminate.
  - destruct st; simpl; [discriminate|].
    intros [= <-]. split; [auto|]. intros [_ H]. apply H. reflexivity.
Qed.

(** The expiration check of a request that is not expired: it hands
    the pass on with [AccessStillValid=True], in memory and in the
    cluster, or it stops on the error of a status write, which only a
    server that refuses a write or a request gone from the cluster can
    bring about; no deletion is asked for. *)
Lemma checkDuration_still_valid ext builder w d def max :
  GetDuration ext (request w) = Ok d ->
  GetDefaultDuration ext (TemplateAccessConfig (GetTemplate builder)) = Ok def ->
  GetMaxDuration ext (TemplateAccessConfig (GetTemplate builder)) = Ok max ->
  now w - CreationTimestamp (request w) <= fst (chooseDuration d def max) ->
  exists w1 new,
    callsSince w w1 new
    /\ existsb isDelete new = false
    /\ (stored w1 = None -> stored w = None)
    /\ ((hasCondition (request w1) ConditionAccessStillValid ConditionTrue "still valid"
         /\ (exists s1, stored w1 = Some s1
                        /\ hasCondition s1 ConditionAccessStillValid
                             ConditionTrue "still valid")
         /\ forall continue, checkDuration ext builder continue w = continue w1)
        \/ (exists e, (e = errAPI \/ e = errNotFound)
                      /\ forall continue,
                          checkDuration ext builder continue w = (PassFailed e, w1))
           /\ ~ (serverObliging w /\ stored w <> None)).
Proof.
  intros Hd Hdef Hmax Hage.
  unfold checkDuration, guard, bind.
  rewrite (verifyDuration_parsed ext builder w d def max Hd Hdef Hmax).
  cbv zeta. unfold SetRequestDurationsValid.
  destruct (UpdateCondition _ _) as [err1 w1] eqn:E1.
  pose proof (UpdateCondition_refused
                (mkCondition ConditionRequestDurationsValid ConditionTrue
                   (snd (chooseDuration d def max)))
                (with_calls
                   (CallLog (snd (chooseDuration d def max))
                      :: CallLog "Beginning access request duration verification"
                      :: calls w) w)) as Href1.
  rewrite E1 in Href1. simpl fst in Href1.
  apply UpdateCondition_inv in E1.
  destruct E1 as (Hr1 & Hc1 & _ & _ & _ & Hn1 & Hf1 & Hst1).
  simpl in Hr1, Hc1, Hn1, Hf1, Hst1.
  destruct err1 as [e|].
  { exists w1. eexists [_; _; _; _]. unfold callsSince.
    split; [rewrite Hc1; reflexivity|].
    split; [reflexivity|]. split; [congruence|].
    right. destruct (Href1 e eq_refl) as [He Hno].
    split; [exists e; split; [exact He | reflexivity] | exact Hno]. }
  destruct Hst1 as (s & Hs & Hs1).
  replace (now w1 - CreationTimestamp (request w1))
    with (now w - CreationTimestamp (request w))
    by (rewrite Hn1, Hr1; reflexivity).
  apply Z.ltb_ge in Hage. rewrite Hage.
  unfold SetAccessStillValid.
  destruct (UpdateCondition _ w1) as [err2 w2] eqn:E2.
  pose proof (UpdateCondition_refused
                (mkCondition ConditionAccessStillValid ConditionTrue "still valid")
                w1) as Href2.
  rewrite E2 in Href2. simpl fst in Href2.
  apply UpdateCondition_inv in E2.
  destruct E2 as (Hr2 & Hc2 & _ & _ & _ & _ & _ & Hst2).
  destruct err2 as [e|].
  { exists w2. eexists [_; _; _; _; _; _]. unfold callsSince.
    split; [rewrite Hc2, Hc1; reflexivity|].
    split; [reflexivity|]. split; [congruence|].
    right. destruct (Href2 e eq_refl) as [He Hno].
    split; [exists e; split; [exact He | reflexivity]|].
    intros [Hob _]. apply Hno. split.
    - unfold serverObliging in *. rewrite Hf1. apply obliging_tl. exact Hob.
    - rewrite Hs1. discriminate. }
  destruct Hst2 as (s1 & _ & Hs2).
  destruct (Find_Set_same (now w1) (Conditions (Status (request w1)))
              (mkCondition ConditionAccessStillValid ConditionTrue "still valid"))
    as (c & Hf & Hsc & Hrc & Hmc).
  assert (Hf2 : FindStatusCondition (Conditions (Status (request w2)))
                  ConditionAccessStillValid = Some c)
    by (rewrite Hr2; exact Hf).
  rewrite (isAccessExpired_valid_run w2 c Hf2)
    by (rewrite Hsc; discriminate).
  exists (with_calls
            (CallLog ("Found Condition AccessStillValid in state "
                        ++ ConditionStatus_String (CondStatus c)
                        ++ ", leaving alone")
               :: CallLog "Checking if access has expired or not..."
               :: calls w2) w2).
  eexists [_; _; _; _; _; _; _; _]. unfold callsSince.
  split; [simpl calls; rewrite Hc2, Hc1; reflexivity|].
  split; [reflexivity|]. split; [simpl; congruence|].
  left. split; [|split; [|reflexivity]].
  - exists c. simpl request. auto.
  - exists (with_status (Status (request w2)) s1). simpl stored.
    split; [exact Hs2|]. exists c. simpl. auto.
Qed.

(** C2: with the durations parsed and the duration resolved from
    them, a request older than that duration is expired within the
    pass: the expiration check sets [AccessStillValid=False], then
    asks for the deletion, and the request is gone from the cluster
    (the server obliging); so it is after the whole pass.  A request
    that is not older is not deleted by the check: no deletion is
    asked for, and the pass goes on with [AccessStillValid=True] set
    in memory and in the cluster; it stops instead, on the error of a
    status write, only when the server refuses a write or the request
    is gone from the cluster. *)
Theorem expiry_within_the_pass ext builder w d def max :
  GetDuration ext (request w) = Ok d ->
  GetDefaultDuration ext (TemplateAccessConfig (GetTemplate builder)) = Ok def ->
  GetMaxDuration ext (TemplateAccessConfig (GetTemplate builder)) = Ok max ->
  let resolved := fst (chooseDuration d def max) in
  let age := now w - CreationTimestamp (request w) in
  (resolved < age -> serverObliging w -> stored w <> None ->
     (forall continue,
        let '(res, w') := checkDuration ext builder continue w in
        res = PassDeleted
        /\ stored w' = None
        /\ hasCondition (request w') ConditionAccessStillValid ConditionFalse "expired"
        /\ exists before between,
            calls w'
            = (CallDelete (Name (request w))
                 :: between
                 ++ CallSetCondition
                      (mkCondition ConditionAccessStillValid ConditionFalse "expired")
                 :: before ++ calls w)%list
            /\ existsb isDelete between = false
            /\ existsb isDelete before = false)
     /\ (stored w = Some (request w) ->
         let '(res, w') := reconcile ext builder w in
         res = PassDeleted
         /\ stored w' = None
         /\ exists c,
             FindStatusCondition (Conditions (Status (request w')))
               ConditionAccessStillValid = Some c
             /\ CondStatus c = ConditionFalse))
  /\ (age <= resolved ->
      exists w1 new,
        callsSince w w1 new
        /\ existsb isDelete new = false
        /\ (stored w1 = None -> stored w = None)
        /\ ((hasCondition (request w1) ConditionAccessStillValid ConditionTrue
               "still valid"
             /\ (exists s1, stored w1 = Some s1
                            /\ hasCondition s1 ConditionAccessStillValid
                                 ConditionTrue "still valid")
             /\ forall continue, checkDuration ext builder continue w = continue w1)
            \/ (exists e, (e = errAPI \/ e = errNotFound)
                          /\ forall continue,
                              checkDuration ext builder continue w
                              = (PassFailed e, w1))
               /\ ~ (serverObliging w /\ stored w <> None))
        /\ (serverObliging w -> stored w <> None ->
            hasCondition (request w1) ConditionAccessStillValid ConditionTrue
              "still valid"
            /\ forall continue,
                checkDuration ext builder continue w = continue w1)).
Proof.
  intros Hd Hdef Hmax resolved age. split.
  - intros Hage Hob Hst.
    destruct (stored w) as [s|] eqn:Es; [clear Hst | contradiction].
    assert (Hcheck := fun continue =>
      checkDuration_expired ext builder w d def max s continue
        Hd Hdef Hmax Hage Hob Es).
    cbv zeta in Hcheck.
    split.
    + intros continue. rewrite Hcheck.
      split; [reflexivity|]. split; [reflexivity|]. split.
      * simpl request. apply hasCondition_setCondition.
      * simpl calls.
        eexists [_; _; _; _]. eexists [_; _; _]. simpl.
        split; [reflexivity|]. split; reflexivity.
    + intros Hfresh. unfold reconcile, bind, refetch. rewrite Es.
      injection Hfresh as ->.
      replace (with_request (request w) w) with w by (destruct w; reflexivity).
      unfold guard at 1. unfold bind.
      destruct (FindStatusCondition (Conditions (Status (request w)))
                  ConditionAccessStillValid) as [c|] eqn:Ef.
      * destruct (ConditionStatus_eqb (CondStatus c) ConditionFalse) eqn:Ec.
        -- assert (Hs : CondStatus c = ConditionFalse)
             by (destruct (CondStatus c); (discriminate || reflexivity)).
           rewrite (isAccessExpired_expired_run w c Ef Hs).
           rewrite (clientDelete_obliging_run _ (request w))
             by assumption.
           split; [reflexivity|]. split; [reflexivity|]. eauto.
        -- assert (Hs : CondStatus c <> ConditionFalse)
             by (intros Hs; rewrite Hs in Ec; discriminate).
           rewrite (isAccessExpired_valid_run w c Ef Hs).
           rewrite (checkDuration_expired ext builder _ d def max (request w));
             try assumption.
           cbv zeta. split; [reflexivity|]. split; [reflexivity|].
           simpl request.
           destruct (Find_Set_same (now w)
                       (Conditions (Status
                          (setCondition (now w)
                             (mkCondition ConditionRequestDurationsValid
                                ConditionTrue (snd (chooseDuration d def max)))
                             (request w))))
                       (mkCondition ConditionAccessStillValid ConditionFalse
                          "expired")) as (c' & Hf' & Hs' & _).
           exists c'. split; assumption.
      * rewrite (isAccessExpired_missing_run w Ef).
        rewrite (checkDuration_expired ext builder _ d def max (request w));
          try assumption.
        cbv zeta. split; [reflexivity|]. split; [reflexivity|].
        simpl request.
        destruct (Find_Set_same (now w)
                    (Conditions (Status
                       (setCondition (now w)
                          (mkCondition ConditionRequestDurationsValid
                             ConditionTrue (snd (chooseDuration d def max)))
                          (request w))))
                    (mkCondition ConditionAccessStillValid ConditionFalse
                       "expired")) as (c' & Hf' & Hs' & _).
        exists c'. split; assumption.
  - intros Hage.
    destruct (checkDuration_still_valid ext builder w d def max Hd Hdef Hmax
                Hage) as (w1 & new & Hc & Hdel & Hst & Hcases).
    exists w1, new.
    split; [exact Hc|]. split; [exact Hdel|]. split; [exact Hst|].
    split; [exact Hcases|].
    intros Hob Hs. destruct Hcases as [(Hv & _ & Hgo) | (_ & Hno)].
    + split; assumption.
    + exfalso. apply Hno. split; assumption.
Qed.

Lemma expiry_within_the_pass_witness :
  let builder := ExecAccessBuilder Sample.ext Sample.template in
  let w := Sample.world (Sample.requestFor "" [] "") (31 * Time.Minute) in
  let v := Sample.world (Sample.requestFor "" [] "") (10 * Time.Minute) in
  (fst (reconcile Sample.ext builder w) = PassDeleted
   /\ stored (snd (reconcile Sample.ext builder w)) = None)
  /\ exists v1 new,
      callsSince v v1 new /\ existsb isDelete new = false
      /\ (stored v1 = None -> stored v = None)
      /\ hasCondition (request v1) ConditionAccessStillValid ConditionTrue
           "still valid"
      /\ checkDuration Sample.ext builder (ret PassRequeue) v = (PassRequeue, v1).
Proof.
  intros builder w v. split.
  - pose proof (expiry_within_the_pass Sample.ext builder w
                  0 (30 * Time.Minute) (2 * Time.Hour)
                  eq_refl eq_refl eq_refl) as H.
    cbv zeta in H. destruct H as [H _].
    assert (Hst : stored w <> None) by discriminate.
    destruct (H eq_refl (Forall_nil _) Hst) as [_ Hpass].
    specialize (Hpass eq_refl).
    destruct (reconcile Sample.ext builder w) as [res w'].
    destruct Hpass as (Hres & Hgone & _). split; assumption.
  - pose proof (expiry_within_the_pass Sample.ext builder v
                  0 (30 * Time.Minute) (2 * Time.Hour)
                  eq_refl eq_refl eq_refl) as H.
    cbv zeta in H. destruct H as [_ H].
    destruct H as (v1 & new & Hc & Hd & Hs & _ & Hgo); [discriminate|].
    assert (Hst : stored v <> None) by discriminate.
    destruct (Hgo (Forall_nil _) Hst) as [Hvalid Hrun].
    exists v1, new.
    split; [exact Hc|]. split; [exact Hd|]. split; [exact Hs|].
    split; [exact Hvalid | exact (Hrun (ret PassRequeue))].
Defined.

(** ** The wait of the command-line front end *)

(** One turn of the loop, by what [Get] answers. *)
Lemma waitLoop_get_fails IsReady get steps deadline req p err :
  Ozctl.reply (get (Ozctl.gets p)) = Error err ->
  Ozctl.waitLoop IsReady get (S steps) deadline req p
  = Ozctl.waitLoop IsReady get steps deadline req
      (Ozctl.print
         (Ozctl.CmdPrint (Ozctl.nl ++ "Error updating request status: "
                            ++ err ++ Ozctl.nl))
         (snd (Ozctl.get get p))).
Proof. intros H. simpl. unfold Ozctl.get. rewrite H. reflexivity. Qed.

Lemma waitLoop_ready IsReady get steps deadline req p fresh :
  Ozctl.reply (get (Ozctl.gets p)) = Ok fresh ->
  IsReady fresh = true ->
  Ozctl.waitLoop IsReady get (S steps) deadline req p
  = (Ozctl.Ready,
     Ozctl.print
       (Ozctl.CmdPrint (Ozctl.nl ++ "Success, your access request is ready!"
                          ++ Ozctl.nl))
       (snd (Ozctl.get get p))).
Proof. intros H Hr. simpl. unfold Ozctl.get. rewrite H, Hr. reflexivity. Qed.

Lemma waitLoop_timed_out IsReady get steps deadline req p fresh :
  Ozctl.reply (get (Ozctl.gets p)) = Ok fresh ->
  IsReady fresh = false ->
  deadline <= Ozctl.clock p + Ozctl.latency (get (Ozctl.gets p)) ->
  Ozctl.waitLoop IsReady get (S steps) deadline req p
  = (Ozctl.Exit 1,
     fold_left (fun p c => Ozctl.print (Ozctl.printCondition c) p)
       (Conditions (Status fresh))
       (Ozctl.print
          (Ozctl.Stdout (Ozctl.nl ++ "Error - timed out waiting for "
                           ++ "ExecAccessRequest to be ready" ++ Ozctl.nl))
          (snd (Ozctl.get get p)))).
Proof.
  intros H Hr Hd. simpl. unfold Ozctl.get. rewrite H, Hr.
  simpl. apply Z.leb_le in Hd. rewrite Hd. reflexivity.
Qed.

Lemma waitLoop_sleeps IsReady get steps deadline req p fresh :
  Ozctl.reply (get (Ozctl.gets p)) = Ok fresh ->
  IsReady fresh = false ->
  Ozctl.clock p + Ozctl.latency (get (Ozctl.gets p)) < deadline ->
  Ozctl.waitLoop IsReady get (S steps) deadline req p
  = Ozctl.waitLoop IsReady get steps deadline fresh
      (Ozctl.sleep (1 * Time.Second)
         (Ozctl.print (Ozctl.CmdPrint ".") (snd (Ozctl.get get p)))).
Proof.
  intros H Hr Hd. simpl. unfold Ozctl.get. rewrite H, Hr.
  simpl. apply Z.leb_gt in Hd. rewrite Hd. reflexivity.
Qed.

(** On the timeout, every condition of the request is printed. *)
Lemma printed_conditions cs p c :
  In c cs ->
  In (Ozctl.printCondition c)
     (Ozctl.out
        (fold_left (fun p c => Ozctl.print (Ozctl.printCondition c) p) cs p)).
Proof.
  revert p. induction cs as [|c0 cs IH]; intros p; simpl; [contradiction|].
  assert (Hkeep : forall l q o, In o (Ozctl.out q) ->
            In o (Ozctl.out
                    (fold_left
                       (fun p c => Ozctl.print (Ozctl.printCondition c) p) l q))).
  { induction l as [|c1 l IHl]; intros q o Ho; simpl; [exact Ho|].
    apply IHl. simpl. right. exact Ho. }
  intros [<- | Hin].
  - apply Hkeep. simpl. left. reflexivity.
  - apply IH. exact Hin.
Qed.

(** While every [Get] succeeds, and takes no negative time, the wait
    ends: an API server answering with a request that is not ready
    makes the command exit with status 1 once the deadline has
    passed, after a turn of the loop per second of the wait and one
    more at most. *)
Lemma waitLoop_times_out IsReady get deadline :
  (forall n, exists fresh,
      Ozctl.reply (get n) = Ok fresh /\ IsReady fresh = false
      /\ 0 <= Ozctl.latency (get n)) ->
  forall steps req p,
    deadline - Ozctl.clock p < Z.of_nat steps * (1 * Time.Second) ->
    fst (Ozctl.waitLoop IsReady get (S steps) deadline req p) = Ozctl.Exit 1.
Proof.
  intros Hget steps. induction steps as [|steps IH]; intros req p Hd;
    destruct (Hget (Ozctl.gets p)) as (fresh & Hf & Hr & Hl).
  - rewrite (waitLoop_timed_out _ _ _ _ _ _ fresh) by (assumption || lia).
    reflexivity.
  - destruct (Z_lt_le_dec (Ozctl.clock p + Ozctl.latency (get (Ozctl.gets p)))
                          deadline) as [Hlt | Hge].
    + rewrite (waitLoop_sleeps _ _ _ _ _ _ fresh) by assumption.
      apply IH. simpl Ozctl.clock. unfold Time.Second, Time.Millisecond,
        Time.Microsecond, Time.Nanosecond in *. lia.
    + rewrite (waitLoop_timed_out _ _ _ _ _ _ fresh) by assumption.
      reflexivity.
Qed.

(** C9, where the code departs from it: while [Get] fails, the loop
    neither sleeps nor looks at the deadline; however many turns it is
    granted it is still running, having slept not at all and printed
    nothing but the error of each turn. *)
Theorem waitLoop_failing_get_never_stops IsReady get deadline :
  (forall n, exists err, Ozctl.reply (get n) = Error err) ->
  forall steps req p,
    let '(outcome, p') := Ozctl.waitLoop IsReady get steps deadline req p in
    outcome = Ozctl.Running
    /\ Ozctl.slept p' = Ozctl.slept p
    /\ Ozctl.gets p' = (Ozctl.gets p + steps)%nat
    /\ exists errors,
        Ozctl.out p' = (errors ++ Ozctl.out p)%list
        /\ List.length errors = steps
        /\ Forall (fun o => exists err,
                     o = Ozctl.CmdPrint (Ozctl.nl ++ "Error updating request status: "
                                           ++ err ++ Ozctl.nl)) errors.
Proof.
  intros Hget steps. induction steps as [|steps IH]; intros req p.
  - simpl. repeat split; [lia|]. exists []. repeat split. constructor.
  - destruct (Hget (Ozctl.gets p)) as (err & He).
    rewrite (waitLoop_get_fails _ _ _ _ _ _ err He).
    specialize (IH req
      (Ozctl.print
         (Ozctl.CmdPrint (Ozctl.nl ++ "Error updating request status: "
                            ++ err ++ Ozctl.nl))
         (snd (Ozctl.get get p)))).
    destruct (Ozctl.waitLoop _ _ _ _ _ _) as [outcome p'].
    destruct IH as (Ho & Hs & Hg & errors & Hout & Hlen & Hall).
    simpl in Hs, Hg, Hout.
    repeat split; [exact Ho | exact Hs | lia |].
    exists (errors ++ [Ozctl.CmdPrint (Ozctl.nl ++ "Error updating request status: "
                                         ++ err ++ Ozctl.nl)])%list.
    repeat split.
    + rewrite Hout, <- app_assoc. reflexivity.
    + rewrite List.length_app. simpl. lia.
    + apply Forall_app. split; [exact Hall|]. constructor; [eauto | constructor].
Qed.

(** With the API server out of reach and a wait of ten seconds, after
    twelve turns, each a second long, the command is still in its loop
    and has not slept. *)
Lemma waitLoop_failing_get_never_stops_witness :
  let run :=
    Ozctl.waitForReady Sample.isReady Sample.unreachable 12
      (10 * Time.Second) (Sample.requestFor "1h" [] "") Sample.startOfWait in
  fst run = Ozctl.Running /\ Ozctl.slept (snd run) = 0.
Proof.
  intros run. subst run. unfold Ozctl.waitForReady.
  pose proof (waitLoop_failing_get_never_stops Sample.isReady Sample.unreachable
                (0 + 10 * Time.Second)
                (fun n => ex_intro _ "connection refused" eq_refl)
                12%nat (Sample.requestFor "1h" [] "")
                (Ozctl.print
                   (Ozctl.CmdPrint "Waiting for ExecAccessRequest to be ready.")
                   Sample.startOfWait)) as H.
  simpl Ozctl.clock.
  destruct (Ozctl.waitLoop _ _ _ _ _ _) as [outcome p'].
  destruct H as (Ho & Hs & _). split; assumption.
Defined.

(** By then the deadline has passed; and the same wait, with the
    server answering, ends: in success when the request is ready, with
    the conditions printed and the exit status 1 when it is not. *)
Example wait_unreachable_past_deadline :
  Ozctl.clock
    (snd (Ozctl.waitForReady Sample.isReady Sample.unreachable 12
            (10 * Time.Second) (Sample.requestFor "1h" [] "") Sample.startOfWait))
  = 12 * Time.Second.
Proof. reflexivity. Qed.

Example wait_ready :
  let ready := Sample.requestFor "1h"
                 [mkCondition ConditionAccessResourcesReady ConditionTrue "ok"] "web-0" in
  Ozctl.waitForReady Sample.isReady (Sample.answering ready) 1
    (10 * Time.Second) (Sample.requestFor "1h" [] "") Sample.startOfWait
  = (Ozctl.Ready,
     {| Ozctl.clock := 0; Ozctl.gets := 1;
        Ozctl.out :=
          [Ozctl.CmdPrint (Ozctl.nl ++ "Success, your access request is ready!"
                             ++ Ozctl.nl);
           Ozctl.CmdPrint "Waiting for ExecAccessRequest to be ready."];
        Ozctl.slept := 0 |}).
Proof. reflexivity. Qed.

Example wait_times_out :
  let pending := Sample.requestFor "1h"
                   [mkCondition ConditionAccessResourcesCreated ConditionFalse
                      "targetPod not found alice-x7"] "" in
  let run := Ozctl.waitForReady Sample.isReady (Sample.answering pending) 11
               (10 * Time.Second) (Sample.requestFor "1h" [] "")
               Sample.startOfWait in
  fst run = Ozctl.Exit 1
  /\ Ozctl.slept (snd run) = 10 * Time.Second
  /\ hd_error (Ozctl.out (snd run))
     = Some (Ozctl.CmdPrint
               ("Condition ResourcesCreated, State: False, "
                  ++ "Reason: targetPod not found alice-x7, "
                  ++ "Message: targetPod not found alice-x7" ++ Ozctl.nl)).
Proof. repeat split; reflexivity. Qed.

(** ** Go's notation of durations *)

Example Duration_String_hours :
  Time.Duration_String (5 * Time.Hour) = "5h0m0s"
  /\ Time.Duration_String (30 * Time.Minute) = "30m0s"
  /\ Time.Duration_String (2 * Time.Hour + 3 * Time.Minute) = "2h3m0s".
Proof. repeat split; reflexivity. Qed.

Example Duration_String_fractions :
  Time.Duration_String (1500 * Time.Millisecond) = "1.5s"
  /\ Time.Duration_String (-1500 * Time.Microsecond) = "-1.5ms"
  /\ Time.Duration_String 0 = "0s"
  /\ Time.Duration_String 7 = "7ns".
Proof. repeat split; reflexivity. Qed.

(** ** The scenarios of the design document *)

(** Scenario A: no duration requested, the template's default of
    thirty minutes is resolved. *)
Example scenario_default :
  chooseDuration 0 (30 * Time.Minute) (2 * Time.Hour)
  = (30 * Time.Minute,
     "Access request duration defaulting to template duration time (30m0s)").
Proof. reflexivity. Qed.

(** Scenario C: at the age of thirty-one minutes, with thirty minutes
    resolved, the pass ends with the request deleted, the setting of
    [AccessStillValid=False] being the last update of a condition
    before the deletion. *)
Example scenario_expired :
  let builder := ExecAccessBuilder Sample.ext Sample.template in
  let w := Sample.world (Sample.requestFor "" [] "") (31 * Time.Minute) in
  let run := reconcile Sample.ext builder w in
  fst run = PassDeleted
  /\ stored (snd run) = None
  /\ hd_error (calls (snd run)) = Some (CallDelete "alice-x7")
  /\ hd_error (filter isSetCondition (calls (snd run)))
     = Some (CallSetCondition
               (mkCondition ConditionAccessStillValid ConditionFalse "expired")).
Proof. vm_compute. repeat split; reflexivity. Qed.

(** A request of ten minutes of age is provisioned: the pass assigns
    the first pod, creates the role and the binding, and the pass after
    it finds the pod assigned and creates nothing more. *)
Example scenario_provisioned :
  let builder := ExecAccessBuilder Sample.ext Sample.template in
  let w := Sample.world (Sample.requestFor "1h" [] "") (10 * Time.Minute) in
  let first := reconcile Sample.ext builder w in
  let second := reconcile Sample.ext builder (snd first) in
  fst first = PassRequeue
  /\ PodName (Status (request (snd first))) = "web-0"
  /\ roles (snd first)
     = [ {| RoleName := "prod-alice-x7";
            Rules := accessRules {| PodObjName := "web-0";
                                    PodObjNamespace := "prod" |} |} ]
  /\ hasCondition (request (snd first)) ConditionAccessResourcesCreated
       ConditionTrue
       "Success. Role prod-alice-x7, RoleBinding prod-alice-x7 created"
  /\ fst second = PassRequeue
  /\ roles (snd second) = roles (snd first)
  /\ roleBindings (snd second) = roleBindings (snd first)
  /\ hasCondition (request (snd second)) ConditionAccessResourcesCreated
       ConditionTrue "Pod already assigned -alice-x7".
Proof.
  unfold hasCondition. vm_compute.
  repeat split; try reflexivity; (eexists; repeat split; reflexivity).
Qed.

(** * Further properties of the code *)

(** ** The checks of the command *)

Lemma dead_nullable r : Cmd.dead r = true -> Cmd.nullable r = false.
Proof.
  induction r as [| |rs|r1 IH1 r2 IH2|r1 IH1 r2 IH2|r IH]; simpl;
    try discriminate; try reflexivity.
  - intros H. apply orb_true_iff in H. destruct H as [H|H].
    + rewrite (IH1 H). reflexivity.
    + rewrite (IH2 H). apply andb_false_r.
  - intros H. apply andb_true_iff in H. destruct H as [H1 H2].
    rewrite (IH1 H1), (IH2 H2). reflexivity.
Qed.

Lemma dead_deriv c r : Cmd.dead r = true -> Cmd.dead (Cmd.deriv c r) = true.
Proof.
  induction r as [| |rs|r1 IH1 r2 IH2|r1 IH1 r2 IH2|r IH]; simpl;
    try discriminate; try reflexivity.
  - intros H. apply orb_true_iff in H. destruct H as [H|H].
    + rewrite (IH1 H), (dead_nullable r1 H). reflexivity.
    + rewrite H, orb_true_r. simpl.
      destruct (Cmd.nullable r1); [exact (IH2 H) | reflexivity].
  - intros H. apply andb_true_iff in H. destruct H as [H1 H2].
    rewrite (IH1 H1), (IH2 H2). reflexivity.
Qed.

Lemma dead_matchPrefix s : forall r, Cmd.dead r = true -> Cmd.matchPrefix r s = false.
Proof.
  induction s as [|c s IH]; intros r H; simpl; rewrite (dead_nullable r H).
  - reflexivity.
  - apply IH. apply dead_deriv. exact H.
Qed.

Lemma nullable_matchPrefix r s : Cmd.nullable r = true -> Cmd.matchPrefix r s = true.
Proof. intros H. destruct s; simpl; rewrite H; reflexivity. Qed.

(** X1: the check of the request name prefix looks at the first three
    characters and at nothing after them: a prefix is accepted exactly
    when it starts with a lowercase letter, then a lowercase letter, a
    digit or a dash, then a lowercase letter or a digit. *)
Theorem request_name_prefix_first_three s :
  Cmd.MatchString Cmd.requestNameRe s
  = match s with
    | String a (String b (String c _)) =>
        Cmd.inClass [Cmd.lower] a
        && Cmd.inClass [Cmd.lower; Cmd.digits; Cmd.dash] b
        && Cmd.inClass [Cmd.lower; Cmd.digits] c
    | _ => false
    end.
Proof.
  unfold Cmd.MatchString, Cmd.requestNameRe, Cmd.Plus.
  cbn [Cmd.beginText Cmd.body].
  destruct s as [|a [|b [|c rest]]].
  - reflexivity.
  - cbn -[Cmd.inClass]. destruct (Cmd.inClass [Cmd.lower] a); reflexivity.
  - cbn -[Cmd.inClass].
    destruct (Cmd.inClass [Cmd.lower] a);
      destruct (Cmd.inClass [Cmd.lower; Cmd.digits; Cmd.dash] b); reflexivity.
  - cbn -[Cmd.inClass].
    destruct (Cmd.inClass [Cmd.lower] a); cbn -[Cmd.inClass];
      (destruct (Cmd.inClass [Cmd.lower; Cmd.digits; Cmd.dash] b);
       cbn -[Cmd.inClass]);
      (destruct (Cmd.inClass [Cmd.lower; Cmd.digits] c) eqn:Ec;
       cbn -[Cmd.inClass]; rewrite ?Ec; cbn -[Cmd.inClass]);
      first [ apply nullable_matchPrefix; reflexivity
            | apply dead_matchPrefix; reflexivity ].
Qed.

Example request_name_prefix_examples :
  Cmd.MatchString Cmd.requestNameRe "alice" = true
  /\ Cmd.MatchString Cmd.requestNameRe "a-1" = true
  /\ Cmd.MatchString Cmd.requestNameRe "abc-" = true
  /\ Cmd.MatchString Cmd.requestNameRe "abc_DEF" = true
  /\ Cmd.MatchString Cmd.requestNameRe "ab" = false
  /\ Cmd.MatchString Cmd.requestNameRe "a--" = false
  /\ Cmd.MatchString Cmd.requestNameRe "Alice" = false
  /\ Cmd.MatchString Cmd.requestNameRe "1ab" = false.
Proof. repeat split; reflexivity. Qed.

(** X2: [PreRunE] returns no error exactly when the request name
    prefix matches the pattern and the wait time parses.  The prefix
    is checked first: when it fails, the error names the prefix and
    the wait time is not looked at; when only the wait time fails, the
    error names the wait time. *)
Theorem PreRunE_outcome parse f out :
  let name_ok := Cmd.MatchString Cmd.requestNameRe (Cmd.requestNamePrefix f) in
  let '(err, out') := Cmd.PreRunE parse f out in
  (err = None <-> name_ok = true /\ exists d, parse (Cmd.waitTime f) = Ok d)
  /\ (name_ok = false ->
      err = Some ("invalid request name prefix: " ++ Cmd.requestNamePrefix f)
      /\ out' = Ozctl.CmdPrint "Validating --request-name prefix... " :: out)
  /\ (name_ok = true ->
      forall e, parse (Cmd.waitTime f) = Error e ->
      err = Some ("invalid time supplied: " ++ Cmd.waitTime f)
      /\ hd_error out' = Some (Ozctl.CmdPrint "Validating --wait-time... ")).
Proof.
  unfold Cmd.PreRunE.
  destruct (Cmd.MatchString Cmd.requestNameRe (Cmd.requestNamePrefix f)) eqn:En;
    simpl.
  - destruct (parse (Cmd.waitTime f)) as [d|e] eqn:Ep.
    + split; [|split].
      * split; [intros _; split; [reflexivity | eauto] | reflexivity].
      * discriminate.
      * intros _ e' [=].
    + split; [|split].
      * split; [discriminate | intros [_ [d [=]]]].
      * discriminate.
      * intros _ e' _. split; reflexivity.
  - split; [|split].
    + split; [discriminate | intros [[=] _]].
    + intros _. split; reflexivity.
    + discriminate.
Qed.

(** ** The run of the command *)

(** X3: when the template does not exist, [Run] prints the lookup
    error and exits with status 1; it makes no [Get], does not sleep,
    and what the server would answer to a creation or a [Get] plays no
    part. *)
Theorem Run_missing_template IsReady parse srv steps f p err :
  Cmd.GetExecAccessTemplate srv (Cmd.template f) (Cmd.KubeNamespace f) = Some err ->
  let '(outcome, p') := Cmd.Run IsReady parse srv steps f p in
  outcome = Ozctl.Exit 1
  /\ hd_error (Ozctl.out p')
     = Some (Ozctl.Stdout ("Error - Invalid --template name flag passed in:"
                             ++ Ozctl.nl ++ "  " ++ err ++ Ozctl.nl))
  /\ Ozctl.gets p' = Ozctl.gets p
  /\ Ozctl.slept p' = Ozctl.slept p
  /\ Ozctl.clock p' = Ozctl.clock p
  /\ forall create get,
       Cmd.Run IsReady parse
         {| Cmd.GetExecAccessTemplate := Cmd.GetExecAccessTemplate srv;
            Cmd.Create := create; Cmd.Get := get |} steps f p
       = (outcome, p').
Proof.
  intros H. unfold Cmd.Run. simpl. rewrite H.
  repeat split; reflexivity.
Qed.

Lemma Run_missing_template_witness :
  let srv := Demo.server (Some "no such template") (fun r => Ok r) (Ok Demo.ready) in
  fst (Cmd.Run Sample.isReady Demo.parse srv 5 Demo.flags Sample.startOfWait)
  = Ozctl.Exit 1.
Proof.
  intros srv.
  pose proof (Run_missing_template Sample.isReady Demo.parse srv 5 Demo.flags
                Sample.startOfWait "no such template" eq_refl) as H.
  destruct (Cmd.Run _ _ _ _ _ _) as [outcome p'].
  exact (proj1 H).
Defined.

(** X4: a creation that fails does not end the command: [Run] prints
    the error, then the line of the created request with an empty
    name, and goes on to wait, asking the server for a request without
    a name. *)
Theorem Run_create_fails IsReady parse srv steps f p err :
  Cmd.GetExecAccessTemplate srv (Cmd.template f) (Cmd.KubeNamespace f) = None ->
  Cmd.Create srv (Cmd.requestNamePrefix f ++ "-") (Cmd.newRequest f) = Error err ->
  exists p0,
    Cmd.Run IsReady parse srv steps f p
    = Ozctl.waitForReady IsReady (Cmd.Get srv EmptyString (Cmd.KubeNamespace f))
        steps (match parse (Cmd.waitTime f) with Ok d => d | Error _ => 0 end)
        (Cmd.newRequest f) p0
    /\ (exists earlier,
          Ozctl.out p0
          = Ozctl.CmdPrint (" created!" ++ Ozctl.nl)
              :: Ozctl.Stdout ("Error - Creating  failed:" ++ Ozctl.nl
                                 ++ "  " ++ err ++ Ozctl.nl)
              :: earlier)
    /\ Ozctl.gets p0 = Ozctl.gets p
    /\ Ozctl.clock p0 = Ozctl.clock p.
Proof.
  intros Hl Hc. unfold Cmd.Run. rewrite Hl, Hc. cbv zeta.
  eexists. split; [reflexivity|].
  split; [eexists; reflexivity|]. split; reflexivity.
Qed.

Lemma Run_create_fails_witness :
  let srv := Demo.server None (fun _ => Error "forbidden") (Error "not found") in
  exists p0,
    Cmd.Run Sample.isReady Demo.parse srv 5 Demo.flags Sample.startOfWait
    = Ozctl.waitForReady Sample.isReady (Cmd.Get srv EmptyString "prod") 5
        (10 * Time.Second) (Cmd.newRequest Demo.flags) p0.
Proof.
  intros srv.
  destruct (Run_create_fails Sample.isReady Demo.parse srv 5 Demo.flags
              Sample.startOfWait "forbidden" eq_refl eq_refl) as (p0 & H & _).
  exists p0. exact H.
Defined.

(** ** The wait, turn after turn *)

Lemma printing_conditions_keeps cs : forall p,
  let p' := fold_left (fun p c => Ozctl.print (Ozctl.printCondition c) p) cs p in
  Ozctl.clock p' = Ozctl.clock p
  /\ Ozctl.gets p' = Ozctl.gets p
  /\ Ozctl.slept p' = Ozctl.slept p
  /\ forall o, In o (Ozctl.out p) -> In o (Ozctl.out p').
Proof.
  induction cs as [|c cs IH]; intros p; simpl.
  - repeat split; trivial.
  - destruct (IH (Ozctl.print (Ozctl.printCondition c) p)) as (Hc & Hg & Hs & Ho).
    simpl in *. repeat split; try assumption.
    intros o Hin. apply Ho. right. exact Hin.
Qed.

(** The turn of the loop, by cases. *)
Lemma waitLoop_turn IsReady get steps deadline req p :
  let p1 := snd (Ozctl.get get p) in
  Ozctl.waitLoop IsReady get (S steps) deadline req p
  = match Ozctl.reply (get (Ozctl.gets p)) with
    | Error err =>
        Ozctl.waitLoop IsReady get steps deadline req
          (Ozctl.print
             (Ozctl.CmdPrint (Ozctl.nl ++ "Error updating request status: "
                                ++ err ++ Ozctl.nl)) p1)
    | Ok fresh =>
        if IsReady fresh then
          (Ozctl.Ready,
           Ozctl.print
             (Ozctl.CmdPrint (Ozctl.nl ++ "Success, your access request is ready!"
                                ++ Ozctl.nl)) p1)
        else if deadline <=? Ozctl.clock p1 then
          (Ozctl.Exit 1,
           fold_left (fun p c => Ozctl.print (Ozctl.printCondition c) p)
             (Conditions (Status fresh))
             (Ozctl.print
                (Ozctl.Stdout (Ozctl.nl ++ "Error - timed out waiting for "
                                 ++ "ExecAccessRequest to be ready" ++ Ozctl.nl))
                p1))
        else
          Ozctl.waitLoop IsReady get steps deadline fresh
            (Ozctl.sleep (1 * Time.Second)
               (Ozctl.print (Ozctl.CmdPrint ".") p1))
    end.
Proof.
  simpl. unfold Ozctl.get.
  destruct (Ozctl.reply (get (Ozctl.gets p))) as [fresh|err]; reflexivity.
Qed.

(** X5: while every [Get] succeeds, and takes no negative time, the
    wait ends, in readiness or in the exit with status 1: a turn for
    each second between the start and the deadline, and one more, are
    enough. *)
Theorem waitLoop_ends IsReady get deadline :
  (forall n, exists fresh,
      Ozctl.reply (get n) = Ok fresh /\ 0 <= Ozctl.latency (get n)) ->
  forall steps req p,
    deadline - Ozctl.clock p < Z.of_nat steps * (1 * Time.Second) ->
    let outcome := fst (Ozctl.waitLoop IsReady get (S steps) deadline req p) in
    outcome = Ozctl.Ready \/ outcome = Ozctl.Exit 1.
Proof.
  intros Hget steps. induction steps as [|steps IH]; intros req p Hd outcome;
    subst outcome; rewrite waitLoop_turn;
    destruct (Hget (Ozctl.gets p)) as (fresh & Hf & Hl); rewrite Hf;
    (destruct (IsReady fresh); [left; reflexivity|]);
    simpl Ozctl.clock.
  - replace (deadline <=? Ozctl.clock p + Ozctl.latency (get (Ozctl.gets p)))
      with true by (symmetry; apply Z.leb_le; lia).
    right. reflexivity.
  - destruct (deadline <=? Ozctl.clock p + Ozctl.latency (get (Ozctl.gets p)))
      eqn:E; [right; reflexivity|].
    apply IH. simpl Ozctl.clock. apply Z.leb_gt in E.
    unfold Time.Second, Time.Millisecond, Time.Microsecond, Time.Nanosecond in *.
    lia.
Qed.

Lemma waitLoop_ends_witness :
  fst (Ozctl.waitLoop Sample.isReady Demo.slowly 12 (10 * Time.Second)
         (Cmd.newRequest Demo.flags) Sample.startOfWait)
  = Ozctl.Ready
  \/ fst (Ozctl.waitLoop Sample.isReady Demo.slowly 12 (10 * Time.Second)
            (Cmd.newRequest Demo.flags) Sample.startOfWait)
     = Ozctl.Exit 1.
Proof.
  apply (waitLoop_ends Sample.isReady Demo.slowly (10 * Time.Second)).
  - intros n. unfold Demo.slowly. simpl.
    destruct (Nat.ltb n 3); eexists; split; reflexivity || discriminate.
  - reflexivity.
Defined.

(** X6: the wait makes the command exit only with status 1, and only
    once the deadline has passed; the request fetched last was not
    ready, and the timeout line and a line for each of its conditions
    have been printed. *)
Theorem waitLoop_exit_sound IsReady get deadline steps : forall req p code,
  fst (Ozctl.waitLoop IsReady get steps deadline req p) = Ozctl.Exit code ->
  let p' := snd (Ozctl.waitLoop IsReady get steps deadline req p) in
  code = 1
  /\ deadline <= Ozctl.clock p'
  /\ exists fresh,
      Ozctl.reply (get (pred (Ozctl.gets p'))) = Ok fresh
      /\ IsReady fresh = false
      /\ In (Ozctl.Stdout (Ozctl.nl ++ "Error - timed out waiting for "
                             ++ "ExecAccessRequest to be ready" ++ Ozctl.nl))
            (Ozctl.out p')
      /\ forall c, In c (Conditions (Status fresh)) ->
                   In (Ozctl.printCondition c) (Ozctl.out p').
Proof.
  induction steps as [|steps IH]; intros req p code; [discriminate|].
  rewrite waitLoop_turn.
  destruct (Ozctl.reply (get (Ozctl.gets p))) as [fresh|err] eqn:Er.
  - destruct (IsReady fresh) eqn:Ei; [discriminate|].
    destruct (deadline <=? Ozctl.clock (snd (Ozctl.get get p))) eqn:Ed.
    + intros [= <-]. cbv zeta. simpl snd.
      match goal with
      | |- context [fold_left _ ?cs ?q] =>
          destruct (printing_conditions_keeps cs q) as (Hc & Hg & _ & Ho)
      end.
      split; [reflexivity|]. split.
      * rewrite Hc. apply Z.leb_le. exact Ed.
      * exists fresh. rewrite Hg. simpl. repeat split; try assumption.
        -- apply Ho. left. reflexivity.
        -- intros c Hin. apply printed_conditions. exact Hin.
    + apply IH.
  - apply IH.
Qed.

Lemma waitLoop_exit_sound_witness :
  let run := Ozctl.waitLoop Sample.isReady (Sample.answering Demo.pending) 11
               (10 * Time.Second) (Cmd.newRequest Demo.flags) Sample.startOfWait in
  10 * Time.Second <= Ozctl.clock (snd run).
Proof.
  intros run.
  exact (proj1 (proj2 (waitLoop_exit_sound Sample.isReady
                         (Sample.answering Demo.pending) (10 * Time.Second) 11
                         (Cmd.newRequest Demo.flags) Sample.startOfWait 1 eq_refl))).
Defined.

(** X7: the wait reports success only for a request it has fetched
    and found ready, the success line being the last it prints; and a
    request found ready is reported so whether or not the deadline has
    passed. *)
Theorem waitLoop_ready_sound IsReady get deadline steps : forall req p,
  (fst (Ozctl.waitLoop IsReady get steps deadline req p) = Ozctl.Ready ->
   let p' := snd (Ozctl.waitLoop IsReady get steps deadline req p) in
   (exists fresh,
       Ozctl.reply (get (pred (Ozctl.gets p'))) = Ok fresh
       /\ IsReady fresh = true)
   /\ hd_error (Ozctl.out p')
      = Some (Ozctl.CmdPrint (Ozctl.nl ++ "Success, your access request is ready!"
                                ++ Ozctl.nl)))
  /\ (forall fresh,
        Ozctl.reply (get (Ozctl.gets p)) = Ok fresh -> IsReady fresh = true ->
        fst (Ozctl.waitLoop IsReady get (S steps) deadline req p) = Ozctl.Ready).
Proof.
  induction steps as [|steps IH]; intros req p; split.
  - discriminate.
  - intros fresh Hf Hr. rewrite waitLoop_turn, Hf, Hr. reflexivity.
  - rewrite waitLoop_turn.
    destruct (Ozctl.reply (get (Ozctl.gets p))) as [fresh|err] eqn:Er.
    + destruct (IsReady fresh) eqn:Ei.
      * intros _. cbv zeta. simpl. split; [|reflexivity].
        exists fresh. split; assumption.
      * destruct (deadline <=? Ozctl.clock (snd (Ozctl.get get p)));
          [discriminate|]. apply IH.
    + apply IH.
  - intros fresh Hf Hr. rewrite waitLoop_turn, Hf, Hr. reflexivity.
Qed.

Lemma waitLoop_ready_sound_witness :
  hd_error
    (Ozctl.out
       (snd (Ozctl.waitLoop Sample.isReady Demo.slowly 11 (10 * Time.Second)
               (Cmd.newRequest Demo.flags) Sample.startOfWait)))
  = Some (Ozctl.CmdPrint (Ozctl.nl ++ "Success, your access request is ready!"
                            ++ Ozctl.nl)).
Proof.
  refine (proj2 (proj1 (waitLoop_ready_sound Sample.isReady Demo.slowly
                          (10 * Time.Second) 11 (Cmd.newRequest Demo.flags)
                          Sample.startOfWait) _)).
  reflexivity.
Defined.

(** A request found ready a minute after the deadline is reported
    ready all the same. *)
Example wait_ready_past_deadline :
  fst (Ozctl.waitLoop Sample.isReady (Sample.answering Demo.ready) 1
         (10 * Time.Second) (Cmd.newRequest Demo.flags)
         {| Ozctl.clock := 70 * Time.Second; Ozctl.gets := 0;
            Ozctl.out := []; Ozctl.slept := 0 |})
  = Ozctl.Ready.
Proof. reflexivity. Qed.

(** X8: with no [Get] taking negative time, the wait sleeps a second
    at a time and never a whole second beyond the deadline: when the
    deadline has passed at the start it does not sleep at all, and
    otherwise the time slept in all is less than the time left to the
    deadline at the start, and a second. *)
Theorem waitLoop_sleep_bounded IsReady get deadline :
  (forall n, 0 <= Ozctl.latency (get n)) ->
  forall steps req p,
    let p' := snd (Ozctl.waitLoop IsReady get steps deadline req p) in
    Ozctl.slept p <= Ozctl.slept p'
    /\ Ozctl.slept p'
       <= Ozctl.slept p
          + (if deadline <=? Ozctl.clock p then 0
             else deadline - Ozctl.clock p + 1 * Time.Second - 1)
    /\ (deadline <= Ozctl.clock p -> Ozctl.slept p' = Ozctl.slept p)
    /\ Ozctl.clock p <= Ozctl.clock p'.
Proof.
  intros Hlat steps.
  assert (Hmain : forall req p,
    let p' := snd (Ozctl.waitLoop IsReady get steps deadline req p) in
    Ozctl.slept p <= Ozctl.slept p'
    /\ Ozctl.slept p'
       <= Ozctl.slept p
          + (if deadline <=? Ozctl.clock p then 0
             else deadline - Ozctl.clock p + 1 * Time.Second - 1)
    /\ Ozctl.clock p <= Ozctl.clock p').
  { induction steps as [|steps IH]; intros req p.
    - simpl. destruct (deadline <=? Ozctl.clock p) eqn:E;
        rewrite ?Z.leb_le, ?Z.leb_gt in E;
        unfold Time.Second, Time.Millisecond, Time.Microsecond,
          Time.Nanosecond; lia.
    - cbv zeta. rewrite waitLoop_turn. cbv zeta.
      pose proof (Hlat (Ozctl.gets p)) as Hl.
      destruct (Ozctl.reply (get (Ozctl.gets p))) as [fresh|err].
      + destruct (IsReady fresh).
        { simpl. destruct (deadline <=? Ozctl.clock p) eqn:E;
            rewrite ?Z.leb_le, ?Z.leb_gt in E;
            unfold Time.Second, Time.Millisecond, Time.Microsecond,
              Time.Nanosecond; lia. }
        destruct (deadline <=? Ozctl.clock (snd (Ozctl.get get p))) eqn:Ed.
        * simpl snd.
          match goal with
          | |- context [fold_left _ ?cs ?q] =>
              destruct (printing_conditions_keeps cs q) as (Hc & _ & Hs & _)
          end.
          rewrite Hs, Hc. simpl.
          destruct (deadline <=? Ozctl.clock p) eqn:E;
            rewrite ?Z.leb_le, ?Z.leb_gt in E;
            unfold Time.Second, Time.Millisecond, Time.Microsecond,
              Time.Nanosecond; lia.
        * apply Z.leb_gt in Ed. simpl in Ed.
          set (q := Ozctl.sleep (1 * Time.Second)
                      (Ozctl.print (Ozctl.CmdPrint ".") (snd (Ozctl.get get p)))).
          specialize (IH fresh q). cbv zeta in IH.
          assert (Hs : Ozctl.slept q = Ozctl.slept p + 1 * Time.Second)
            by reflexivity.
          assert (Hc : Ozctl.clock q
                       = Ozctl.clock p + Ozctl.latency (get (Ozctl.gets p))
                         + 1 * Time.Second) by reflexivity.
          rewrite Hs, Hc in IH.
          destruct (deadline <=? Ozctl.clock p) eqn:E;
            destruct (deadline <=? Ozctl.clock p
                                   + Ozctl.latency (get (Ozctl.gets p))
                                   + 1 * Time.Second) eqn:E';
            rewrite ?Z.leb_le, ?Z.leb_gt in E, E';
            unfold Time.Second, Time.Millisecond, Time.Microsecond,
              Time.Nanosecond in *; lia.
      + set (q := Ozctl.print
                    (Ozctl.CmdPrint (Ozctl.nl ++ "Error updating request status: "
                                       ++ err ++ Ozctl.nl))
                    (snd (Ozctl.get get p))).
        specialize (IH req q). cbv zeta in IH.
        assert (Hs : Ozctl.slept q = Ozctl.slept p) by reflexivity.
        assert (Hc : Ozctl.clock q
                     = Ozctl.clock p + Ozctl.latency (get (Ozctl.gets p)))
          by reflexivity.
        rewrite Hs, Hc in IH.
        destruct (deadline <=? Ozctl.clock p) eqn:E;
          destruct (deadline <=? Ozctl.clock p
                                 + Ozctl.latency (get (Ozctl.gets p))) eqn:E';
          rewrite ?Z.leb_le, ?Z.leb_gt in E, E';
          unfold Time.Second, Time.Millisecond, Time.Microsecond,
            Time.Nanosecond in *; lia. }
  intros req p. cbv zeta.
  destruct (Hmain req p) as (Hlow & Hup & Hclock).
  split; [exact Hlow|]. split; [exact Hup|]. split; [|exact Hclock].
  intros Hpast. apply Z.leb_le in Hpast. rewrite Hpast in Hup. lia.
Qed.

Lemma waitLoop_sleep_bounded_witness :
  let p' := snd (Ozctl.waitLoop Sample.isReady (Sample.answering Demo.pending) 30
                   (10 * Time.Second) (Cmd.newRequest Demo.flags)
                   Sample.startOfWait) in
  let late := {| Ozctl.clock := 10 * Time.Second; Ozctl.gets := 0;
                 Ozctl.out := []; Ozctl.slept := 0 |} in
  let q' := snd (Ozctl.waitLoop Sample.isReady (Sample.answering Demo.pending) 30
                   (10 * Time.Second) (Cmd.newRequest Demo.flags) late) in
  Ozctl.slept p' <= 11 * Time.Second - 1
  /\ Ozctl.slept q' = 0.
Proof.
  intros p' late q'.
  assert (Hlat : forall n, 0 <= Ozctl.latency (Sample.answering Demo.pending n))
    by (intros n; discriminate).
  split.
  - exact (proj1 (proj2 (waitLoop_sleep_bounded Sample.isReady
                           (Sample.answering Demo.pending) (10 * Time.Second)
                           Hlat 30 (Cmd.newRequest Demo.flags)
                           Sample.startOfWait))).
  - refine (proj1 (proj2 (proj2 (waitLoop_sleep_bounded Sample.isReady
                                   (Sample.answering Demo.pending)
                                   (10 * Time.Second) Hlat 30
                                   (Cmd.newRequest Demo.flags) late))) _).
    discriminate.
Defined.

(** ** What the duration check touches *)

Lemma keeps_ret {A} (R : World -> World -> Prop) (a : A) :
  (forall w, R w w) -> keeps R (ret a).
Proof. intros Hrefl w. apply Hrefl. Qed.

Lemma keeps_bind {A B} (R : World -> World -> Prop) (m : M A) (k : A -> M B) :
  (forall w1 w2 w3, R w1 w2 -> R w2 w3 -> R w1 w3) ->
  keeps R m -> (forall a, keeps R (k a)) -> keeps R (bind m k).
Proof.
  intros Htrans Hm Hk w. unfold bind.
  specialize (Hm w). destruct (m w) as [a w1]. simpl in Hm.
  exact (Htrans _ _ _ Hm (Hk a w1)).
Qed.

Lemma onlyConditionsTouched_refl w : onlyConditionsTouched w w.
Proof.
  unfold onlyConditionsTouched. repeat split; trivial.
  - congruence.
  - congruence.
  - congruence.
  - congruence.
  - left. congruence.
  - left. congruence.
  - exists []. split; reflexivity.
Qed.

Lemma onlyConditionsTouched_trans w1 w2 w3 :
  onlyConditionsTouched w1 w2 -> onlyConditionsTouched w2 w3 ->
  onlyConditionsTouched w1 w3.
Proof.
  unfold onlyConditionsTouched, callsSince.
  intros (A1 & A2 & A3 & A4 & A5 & A6 & A7 & A8 & A9 & A10 & A11 & AS
          & n1 & A12 & A13)
         (B1 & B2 & B3 & B4 & B5 & B6 & B7 & B8 & B9 & B10 & B11 & BS
          & n2 & B12 & B13).
  split; [congruence|]. split; [congruence|]. split; [congruence|].
  split; [congruence|]. split; [congruence|]. split; [congruence|].
  split; [congruence|]. split; [congruence|]. split; [congruence|].
  split; [congruence|]. split; [tauto|]. split.
  - intros s1 s3 H1 H3.
    destruct (stored w2) as [s2|] eqn:E2.
    + destruct (AS s1 s2 H1 eq_refl) as (a1 & a2 & a3 & a4 & a5 & a6).
      destruct (BS s2 s3 eq_refl H3) as (b1 & b2 & b3 & b4 & b5 & b6).
      rewrite A5 in b5. rewrite A6 in b6.
      split; [congruence|]. split; [congruence|]. split; [congruence|].
      split; [congruence|]. split.
      * destruct a5, b5; (left; congruence) || (right; congruence).
      * destruct a6, b6; (left; congruence) || (right; congruence).
    + exfalso. assert (H : stored w1 = None) by (apply A11; reflexivity).
      congruence.
  - exists (n2 ++ n1)%list. split.
    + rewrite B12, A12, app_assoc. reflexivity.
    + rewrite existsb_app, A13, B13. reflexivity.
Qed.

Lemma onlyConditionsTouched_record c :
  isDelete c = false -> keeps onlyConditionsTouched (record c).
Proof.
  intros Hc w. unfold onlyConditionsTouched, callsSince. simpl.
  split; [reflexivity|]. split; [reflexivity|]. split; [reflexivity|].
  split; [reflexivity|]. split; [reflexivity|]. split; [reflexivity|].
  split; [reflexivity|]. split; [reflexivity|]. split; [reflexivity|].
  split; [reflexivity|]. split; [tauto|]. split.
  - intros s s' H H'. rewrite H in H'. injection H' as <-.
    repeat split; try reflexivity; left; reflexivity.
  - exists [c]. split; [reflexivity|]. simpl. rewrite Hc. reflexivity.
Qed.

Lemma onlyConditionsTouched_UpdateCondition c :
  keeps onlyConditionsTouched (UpdateCondition c).
Proof.
  intros w. destruct (UpdateCondition c w) as [err w'] eqn:E.
  apply UpdateCondition_inv in E.
  destruct E as (Hr & Hc & Hroles & Hbind & Hpods & Hnow & _ & Hst).
  simpl. unfold onlyConditionsTouched, callsSince.
  rewrite Hr.
  split; [reflexivity|]. split; [reflexivity|]. split; [reflexivity|].
  split; [reflexivity|]. split; [reflexivity|]. split; [reflexivity|].
  split; [exact Hroles|]. split; [exact Hbind|]. split; [exact Hpods|].
  split; [exact Hnow|]. split; [|split].
  - destruct err; [rewrite Hst; tauto|].
    destruct Hst as (s & Hs & Hs'). rewrite Hs, Hs'. split; discriminate.
  - intros s s' H H'. destruct err.
    + rewrite Hst, H in H'. injection H' as <-.
      repeat split; try reflexivity; left; reflexivity.
    + destruct Hst as (s0 & Hs & Hs'). rewrite H in Hs. injection Hs as <-.
      rewrite Hs' in H'. injection H' as <-. rewrite Hr. simpl.
      repeat split; try reflexivity; right; reflexivity.
  - eexists [_; _]. split; [rewrite Hc, Hr; reflexivity | reflexivity].
Qed.

(** X9: [verifyDuration] changes nothing but conditions in the
    in-memory request.  Whatever the durations, the age and the
    answers of the server, it asks for no deletion, the request is in
    the cluster after it if it was before, with its name and its spec,
    and the roles and the bindings are as they were.  Its status
    writes carry the whole in-memory status to the cluster: the pod
    and the access message of the stored request are then each as
    stored before or as the in-memory request has them, and so
    unchanged when the stored request agreed with the in-memory one on
    them. *)
Theorem verifyDuration_touches_conditions_only ext builder w :
  let w' := snd (verifyDuration ext builder w) in
  onlyConditionsTouched w w'
  /\ (forall s s',
        stored w = Some s -> stored w' = Some s' ->
        PodName (Status s) = PodName (Status (request w)) ->
        AccessMessage (Status s) = AccessMessage (Status (request w)) ->
        PodName (Status s') = PodName (Status s)
        /\ AccessMessage (Status s') = AccessMessage (Status s)).
Proof.
  cbv zeta.
  assert (Hkeeps : onlyConditionsTouched w (snd (verifyDuration ext builder w)));
    [|split; [exact Hkeeps|];
      intros s s' Hs Hs' Hp Ha;
      destruct Hkeeps as (_ & _ & _ & _ & _ & _ & _ & _ & _ & _ & _ & Hst & _);
      destruct (Hst s s' Hs Hs') as (_ & _ & _ & _ & [Hp'|Hp'] & [Ha'|Ha']);
      split; congruence].
  revert w. change (keeps onlyConditionsTouched (verifyDuration ext builder)).
  unfold verifyDuration, logInfo, SetRequestDurationsNotValid,
    SetRequestDurationsValid, SetAccessNotValid, SetAccessStillValid, GetUptime.
  pose proof onlyConditionsTouched_trans as T.
  pose proof onlyConditionsTouched_refl as R.
  apply keeps_bind; [exact T | apply onlyConditionsTouched_record; reflexivity
                    | intros _].
  apply keeps_bind; [exact T | intros w; apply R | intros req].
  destruct (GetDuration ext req) as [d|e];
    [|apply keeps_bind;
      [exact T | apply onlyConditionsTouched_UpdateCondition
      | intros _; apply keeps_ret; exact R]].
  destruct (GetDefaultDuration ext _) as [def|e];
    [|apply keeps_bind;
      [exact T | apply onlyConditionsTouched_UpdateCondition
      | intros _; apply keeps_ret; exact R]].
  destruct (GetMaxDuration ext _) as [max|e];
    [|apply keeps_bind;
      [exact T | apply onlyConditionsTouched_UpdateCondition
      | intros _; apply keeps_ret; exact R]].
  destruct (chooseDuration d def max) as [D reasonStr].
  apply keeps_bind; [exact T | apply onlyConditionsTouched_record; reflexivity
                    | intros _].
  apply keeps_bind; [exact T | apply onlyConditionsTouched_UpdateCondition
                    | intros err].
  destruct err; [apply keeps_ret; exact R|].
  apply keeps_bind; [exact T | intros w; apply R | intros uptime].
  destruct (D <? uptime); apply onlyConditionsTouched_UpdateCondition.
Qed.

Lemma verifyDuration_touches_conditions_only_witness :
  let w := Sample.world (Sample.requestFor "1h" [] "web-0")
             (10 * Time.Minute) in
  let w' := snd (verifyDuration Sample.ext
                   (ExecAccessBuilder Sample.ext Sample.template) w) in
  exists s',
    stored w' = Some s'
    /\ PodName (Status s') = "web-0"
    /\ AccessMessage (Status s') = ""
    /\ Spec s' = Spec (request w)
    /\ roles w' = [] /\ roleBindings w' = [].
Proof.
  intros w w'.
  pose proof (verifyDuration_touches_conditions_only Sample.ext
                (ExecAccessBuilder Sample.ext Sample.template) w) as H.
  cbv zeta in H. fold w' in H.
  destruct H as [(_ & _ & _ & _ & _ & _ & Hr & Hb & _ & _ & Hin & Hst & _)
                   Hsame].
  destruct (stored w') as [s'|] eqn:Es.
  - exists s'.
    destruct (Hsame _ s' eq_refl eq_refl eq_refl eq_refl) as [Hp Ha].
    destruct (Hst _ s' eq_refl eq_refl) as (_ & _ & _ & Hspec & _).
    repeat split; assumption.
  - exfalso. destruct Hin as [Hin _]. discriminate (Hin eq_refl).
Defined.

(** The status is written as a whole: a pod name that only the
    in-memory request has reaches the cluster with the conditions
    [verifyDuration] writes. *)
Example verifyDuration_carries_pod_name :
  let w := with_stored (Some (Sample.requestFor "1h" [] ""))
             (Sample.world (Sample.requestFor "1h" [] "web-0")
                (10 * Time.Minute)) in
  let w' := snd (verifyDuration Sample.ext
                   (ExecAccessBuilder Sample.ext Sample.template) w) in
  option_map (fun s => PodName (Status s)) (stored w) = Some ""
  /\ option_map (fun s => PodName (Status s)) (stored w') = Some "web-0".
Proof. vm_compute. split; reflexivity. Qed.

(** The verdict of [verifyDuration] on a request whose durations
    parse, when its writes go through. *)
Lemma verifyDuration_verdict ext builder w d def max :
  GetDuration ext (request w) = Ok d ->
  GetDefaultDuration ext (TemplateAccessConfig (GetTemplate builder)) = Ok def ->
  GetMaxDuration ext (TemplateAccessConfig (GetTemplate builder)) = Ok max ->
  fst (verifyDuration ext builder w) = None ->
  let w' := snd (verifyDuration ext builder w) in
  hasCondition (request w') ConditionRequestDurationsValid ConditionTrue
    (snd (chooseDuration d def max))
  /\ if fst (chooseDuration d def max) <? now w - CreationTimestamp (request w)
     then hasCondition (request w') ConditionAccessStillValid ConditionFalse "expired"
     else hasCondition (request w') ConditionAccessStillValid ConditionTrue
            "still valid".
Proof.
  intros Hd Hdef Hmax.
  rewrite (verifyDuration_parsed ext builder w d def max Hd Hdef Hmax).
  cbv zeta. unfold SetRequestDurationsValid.
  destruct (UpdateCondition _ _) as [err1 w1] eqn:E1.
  apply UpdateCondition_inv in E1.
  destruct E1 as (Hr1 & _ & _ & _ & _ & Hn1 & _ & _).
  simpl in Hr1, Hn1.
  destruct err1 as [e|]; [discriminate|].
  replace (now w1 - CreationTimestamp (request w1))
    with (now w - CreationTimestamp (request w))
    by (rewrite Hn1, Hr1; reflexivity).
  unfold SetAccessNotValid, SetAccessStillValid.
  destruct (fst (chooseDuration d def max)
            <? now w - CreationTimestamp (request w));
    destruct (UpdateCondition _ w1) as [err2 w2] eqn:E2;
    apply UpdateCondition_inv in E2; destruct E2 as (Hr2 & _);
    intros _; simpl; rewrite Hr2; (split;
      [ apply hasCondition_setCondition_other;
        [exact DurationsValid_not_AccessStillValid
        | rewrite Hr1; apply hasCondition_setCondition]
      | apply hasCondition_setCondition ]).
Qed.

(** With the durations parsed, an obliging server and the request in
    the cluster, [verifyDuration] returns no error. *)
Lemma verifyDuration_obliging ext builder w d def max :
  GetDuration ext (request w) = Ok d ->
  GetDefaultDuration ext (TemplateAccessConfig (GetTemplate builder)) = Ok def ->
  GetMaxDuration ext (TemplateAccessConfig (GetTemplate builder)) = Ok max ->
  serverObliging w -> stored w <> None ->
  fst (verifyDuration ext builder w) = None.
Proof.
  intros Hd Hdef Hmax Hob Hst.
  destruct (stored w) as [s|] eqn:Es; [clear Hst | contradiction].
  rewrite (verifyDuration_parsed ext builder w d def max Hd Hdef Hmax).
  cbv zeta. unfold SetRequestDurationsValid.
  rewrite (UpdateCondition_obliging_run _ _ s) by assumption.
  cbv zeta. unfold SetAccessNotValid, SetAccessStillValid.
  match goal with
  | |- context [if ?b then _ else _] => destruct b
  end;
    (erewrite UpdateCondition_obliging_run;
     [reflexivity | apply obliging_tl; exact Hob | reflexivity]).
Qed.

(** X10: the template's maximum caps what is requested, and only
    that.  A request that asks for a duration is resolved to no more
    than the maximum, and is marked [AccessStillValid=False] once it is
    older than the maximum; a request that asks for none gets the
    default as it stands, so that with a default above the maximum it
    is marked [AccessStillValid=True] at an age between the two.  The
    marking is made whenever [verifyDuration] returns no error, which
    it does when the server obliges and the request is in the
    cluster. *)
Theorem maximum_caps_requested_only ext builder w d def max :
  GetDuration ext (request w) = Ok d ->
  GetDefaultDuration ext (TemplateAccessConfig (GetTemplate builder)) = Ok def ->
  GetMaxDuration ext (TemplateAccessConfig (GetTemplate builder)) = Ok max ->
  let age := now w - CreationTimestamp (request w) in
  let err := fst (verifyDuration ext builder w) in
  let w' := snd (verifyDuration ext builder w) in
  (d <> 0 -> fst (chooseDuration d def max) <= max)
  /\ (serverObliging w -> stored w <> None -> err = None)
  /\ (err = None -> d <> 0 -> max < age ->
      hasCondition (request w') ConditionAccessStillValid ConditionFalse
        "expired")
  /\ (err = None -> d = 0 -> age <= def ->
      hasCondition (request w') ConditionAccessStillValid ConditionTrue
        "still valid")
  /\ (serverObliging w -> stored w <> None -> d = 0 -> age <= def ->
      hasCondition (request w') ConditionAccessStillValid ConditionTrue
        "still valid").
Proof.
  intros Hd Hdef Hmax age err w'.
  assert (Hcap : d <> 0 -> fst (chooseDuration d def max) <= max).
  { intros Hnz. unfold chooseDuration.
    destruct (d =? 0) eqn:E0; [lia|].
    destruct (d <=? max) eqn:E1; simpl; lia. }
  assert (Hok : serverObliging w -> stored w <> None -> err = None)
    by (intros Hob Hst;
        exact (verifyDuration_obliging ext builder w d def max Hd Hdef Hmax
                 Hob Hst)).
  assert (Hexpired : err = None -> d <> 0 -> max < age ->
            hasCondition (request w') ConditionAccessStillValid ConditionFalse
              "expired").
  { intros Herr Hnz Hold.
    destruct (verifyDuration_verdict ext builder w d def max Hd Hdef Hmax Herr)
      as [_ Hv].
    fold age in Hv. fold w' in Hv. specialize (Hcap Hnz).
    destruct (fst (chooseDuration d def max) <? age) eqn:E; [exact Hv|].
    apply Z.ltb_ge in E. lia. }
  assert (Hvalid : err = None -> d = 0 -> age <= def ->
            hasCondition (request w') ConditionAccessStillValid ConditionTrue
              "still valid").
  { intros Herr Hz Hyoung.
    destruct (verifyDuration_verdict ext builder w d def max Hd Hdef Hmax Herr)
      as [_ Hv].
    fold age in Hv. fold w' in Hv. subst d.
    unfold chooseDuration in Hv. simpl in Hv.
    destruct (def <? age) eqn:E; [|exact Hv].
    apply Z.ltb_lt in E. lia. }
  split; [exact Hcap|]. split; [exact Hok|]. split; [exact Hexpired|].
  split; [exact Hvalid|].
  intros Hob Hst. apply Hvalid. exact (Hok Hob Hst).
Qed.

Lemma maximum_caps_requested_only_witness :
  let w := Sample.world (Sample.requestFor "5h" [] "") (3 * Time.Hour) in
  let v := Sample.world (Sample.requestFor "" [] "") (3 * Time.Hour) in
  hasCondition
    (request (snd (verifyDuration Sample.ext
                     (ExecAccessBuilder Sample.ext Sample.template) w)))
    ConditionAccessStillValid ConditionFalse "expired"
  /\ fst (verifyDuration Sample.ext
            (ExecAccessBuilder Sample.ext Demo.generous) v) = None
  /\ hasCondition
       (request (snd (verifyDuration Sample.ext
                        (ExecAccessBuilder Sample.ext Demo.generous) v)))
       ConditionAccessStillValid ConditionTrue "still valid".
Proof.
  intros w v.
  pose proof (maximum_caps_requested_only Sample.ext
                (ExecAccessBuilder Sample.ext Sample.template) w
                (5 * Time.Hour) (30 * Time.Minute) (2 * Time.Hour)
                eq_refl eq_refl eq_refl) as Hw.
  pose proof (maximum_caps_requested_only Sample.ext
                (ExecAccessBuilder Sample.ext Demo.generous) v
                0 (5 * Time.Hour) (2 * Time.Hour)
                eq_refl eq_refl eq_refl) as Hv.
  cbv zeta in Hw, Hv.
  destruct Hw as (_ & Hwok & Hwexp & _).
  destruct Hv as (_ & Hvok & _ & _ & Hvalid).
  assert (Hsw : stored w <> None) by discriminate.
  assert (Hsv : stored v <> None) by discriminate.
  split; [|split].
  - apply Hwexp.
    + exact (Hwok (Forall_nil _) Hsw).
    + discriminate.
    + reflexivity.
  - exact (Hvok (Forall_nil _) Hsv).
  - apply (Hvalid (Forall_nil _) Hsv); [reflexivity | discriminate].
Defined.

(** X11: a negative duration that parses is taken as the duration
    requested, the durations being recorded as valid, and the request
    is marked [AccessStillValid=False] at once, at any age that is not
    negative. *)
Theorem negative_duration_expires_at_once ext builder w d def max :
  GetDuration ext (request w) = Ok d ->
  GetDefaultDuration ext (TemplateAccessConfig (GetTemplate builder)) = Ok def ->
  GetMaxDuration ext (TemplateAccessConfig (GetTemplate builder)) = Ok max ->
  fst (verifyDuration ext builder w) = None ->
  d < 0 -> 0 <= now w - CreationTimestamp (request w) ->
  let w' := snd (verifyDuration ext builder w) in
  fst (chooseDuration d def max) < 0
  /\ (exists reason,
        hasCondition (request w') ConditionRequestDurationsValid ConditionTrue
          reason)
  /\ hasCondition (request w') ConditionAccessStillValid ConditionFalse "expired".
Proof.
  intros Hd Hdef Hmax Herr Hneg Hage w'.
  destruct (verifyDuration_verdict ext builder w d def max Hd Hdef Hmax Herr)
    as [Hvalid Hv].
  fold w' in Hv, Hvalid.
  assert (Hres : fst (chooseDuration d def max) < 0).
  { unfold chooseDuration.
    destruct (d =? 0) eqn:E0; [lia|].
    destruct (d <=? max) eqn:E1; simpl; lia. }
  split; [exact Hres|]. split; [eauto|].
  destruct (fst (chooseDuration d def max)
            <? now w - CreationTimestamp (request w)) eqn:E; [exact Hv|].
  apply Z.ltb_ge in E. lia.
Qed.

Lemma negative_duration_expires_at_once_witness :
  let builder := ExecAccessBuilder Demo.ext Sample.template in
  let w := Sample.world (Sample.requestFor "-1h" [] "") 0 in
  hasCondition (request (snd (verifyDuration Demo.ext builder w)))
    ConditionAccessStillValid ConditionFalse "expired".
Proof.
  intros builder w.
  refine (proj2 (proj2 (negative_duration_expires_at_once Demo.ext builder w
                          (- (1 * Time.Hour)) (30 * Time.Minute) (2 * Time.Hour)
                          eq_refl eq_refl eq_refl eq_refl _ _)));
    reflexivity || discriminate.
Defined.

(** X12: when the write of [DurationsValid] does not go through, the
    server refusing it or the request being gone from the cluster,
    [verifyDuration] returns the error of that write and stops: the
    age is not looked at, the [AccessStillValid] condition is as it
    was, and the stored object is untouched. *)
Theorem verifyDuration_first_write_fails ext builder w d def max :
  GetDuration ext (request w) = Ok d ->
  GetDefaultDuration ext (TemplateAccessConfig (GetTemplate builder)) = Ok def ->
  GetMaxDuration ext (TemplateAccessConfig (GetTemplate builder)) = Ok max ->
  hd false (faults w) = true \/ stored w = None ->
  let '(err, w') := verifyDuration ext builder w in
  (err = Some errAPI \/ err = Some errNotFound)
  /\ FindStatusCondition (Conditions (Status (request w'))) ConditionAccessStillValid
     = FindStatusCondition (Conditions (Status (request w))) ConditionAccessStillValid
  /\ stored w' = stored w
  /\ exists st reason,
      calls w'
      = CallStatusUpdate st
          :: CallSetCondition
               (mkCondition ConditionRequestDurationsValid ConditionTrue reason)
          :: CallLog reason
          :: CallLog "Beginning access request duration verification"
          :: calls w.
Proof.
  intros Hd Hdef Hmax Hfail.
  rewrite (verifyDuration_parsed ext builder w d def max Hd Hdef Hmax).
  cbv zeta.
  assert (Hrun : exists e w1,
            SetRequestDurationsValid (snd (chooseDuration d def max))
              (with_calls
                 (CallLog (snd (chooseDuration d def max))
                    :: CallLog "Beginning access request duration verification"
                    :: calls w) w) = (Some e, w1)
            /\ (e = errAPI \/ e = errNotFound)).
  { unfold SetRequestDurationsValid, UpdateCondition, clientStatusUpdate, bind,
      record, getRequest, nextFault, ret.
    destruct w as [r st rs bs ps n fs cs]; simpl in *.
    destruct Hfail as [Hf | Hs].
    - destruct fs as [|[] fs]; try discriminate. simpl. eauto.
    - subst st. destruct fs as [|[] fs]; simpl; eauto. }
  destruct Hrun as (e & w1 & Hrun & He). rewrite Hrun.
  unfold SetRequestDurationsValid in Hrun.
  apply UpdateCondition_inv in Hrun.
  destruct Hrun as (Hr & Hc & _ & _ & _ & _ & _ & Hst).
  simpl in Hr, Hc, Hst.
  split; [destruct He as [-> | ->]; auto|]. split; [|split].
  - rewrite Hr. simpl. apply Find_Set_other.
    intros H. symmetry in H. exact (DurationsValid_not_AccessStillValid H).
  - exact Hst.
  - eexists. eexists. exact Hc.
Qed.

Lemma verifyDuration_first_write_fails_witness :
  let builder := ExecAccessBuilder Sample.ext Sample.template in
  let w := Demo.refusing [true] (Sample.requestFor "1h" [] "") (3 * Time.Hour) in
  fst (verifyDuration Sample.ext builder w) = Some errAPI
  \/ fst (verifyDuration Sample.ext builder w) = Some errNotFound.
Proof.
  intros builder w.
  pose proof (verifyDuration_first_write_fails Sample.ext builder w
                (1 * Time.Hour) (30 * Time.Minute) (2 * Time.Hour)
                eq_refl eq_refl eq_refl (or_introl eq_refl)) as H.
  destruct (verifyDuration Sample.ext builder w) as [err w'].
  exact (proj1 H).
Defined.

(** ** Readiness *)


(** ** Provisioning, step by step *)

Ltac unfold_builder :=
  unfold CreateAccessResources, internalGetPod, CreateRole, CreateRoleBinding,
    SetAccessMessage, SetPodName, clientStatusUpdate, bind, record, getRequest,
    nextFault, ret, with_calls, with_faults, with_roles, with_roleBindings,
    with_stored, with_request.

Ltac found_by_name :=
  repeat match goal with
         | H : find _ _ = Some _ |- _ =>
             apply find_some in H; destruct H as [? H];
             apply String.eqb_eq in H
         end.

(** X14: a provisioning that fails assigns nothing: with every error
    [CreateAccessResources] returns the empty status string, the
    request has no pod assigned, in memory as in the cluster, where
    its status is as it was, and its conditions are untouched; so that
    the next pass selects a target anew. *)
Theorem CreateAccessResources_failure_assigns_nothing ext tmpl w :
  PodName (Status (request w)) = "" ->
  let '((msg, err), w') := CreateAccessResources ext tmpl w in
  err <> None ->
  msg = ""
  /\ PodName (Status (request w')) = ""
  /\ stored w' = stored w
  /\ Conditions (Status (request w')) = Conditions (Status (request w)).
Proof.
  intros Hp. unfold_builder.
  destruct w as [r st rs bs ps n fs cs]; simpl in *.
  rewrite Hp. simpl.
  repeat (break_match; simpl); rewrite ?Hp;
    intros Hne; try (exfalso; apply Hne; reflexivity);
    try (exfalso; rewrite Hp in *; simpl in *; discriminate);
    repeat split; try reflexivity; try assumption; try congruence.
Qed.

Lemma CreateAccessResources_failure_assigns_nothing_witness :
  let w := Demo.refusing [true] (Sample.requestFor "1h" [] "") 0 in
  PodName (Status (request (snd (CreateAccessResources Sample.ext Sample.template w))))
  = "".
Proof.
  intros w.
  pose proof (CreateAccessResources_failure_assigns_nothing Sample.ext
                Sample.template w eq_refl) as H.
  destruct (CreateAccessResources Sample.ext Sample.template w) as [[msg err] w']
    eqn:E.
  assert (Hne : err <> None).
  { vm_compute in E. injection E as _ <- _. discriminate. }
  exact (proj1 (proj2 (H Hne))).
Defined.

(** A provisioning that succeeds, in full. *)
Lemma CreateAccessResources_succeeds ext tmpl w :
  PodName (Status (request w)) = "" ->
  let '((msg, err), w') := CreateAccessResources ext tmpl w in
  err = None ->
  let name := generateResourceName ext (Namespace (request w)) (Name (request w)) in
  exists pod command s,
    GetPod ext (pods w) (request w) tmpl = (Some pod, None)
    /\ CreateAccessCommand ext (AccessCommand (TemplateAccessConfig tmpl)) pod
       = Ok command
    /\ stored w = Some s
    /\ msg = "Success. Role " ++ name ++ ", RoleBinding " ++ name ++ " created"
    /\ request w'
       = with_status {| Conditions := Conditions (Status (request w));
                        PodName := PodObjName pod;
                        AccessMessage := command |} (request w)
    /\ stored w'
       = Some (with_status {| Conditions := Conditions (Status (request w));
                              PodName := "";
                              AccessMessage := command |} s)
    /\ calls w'
       = CallStatusUpdate {| Conditions := Conditions (Status (request w));
                             PodName := "";
                             AccessMessage := command |}
           :: CallCreateRoleBinding name name
           :: CallCreateRole name (accessRules pod)
           :: CallGetPod :: calls w
    /\ (exists role, In role (roles w') /\ RoleName role = name)
    /\ (exists binding, In binding (roleBindings w') /\ BindingName binding = name).
Proof.
  intros Hp. unfold_builder.
  destruct w as [r st rs bs ps n fs cs]; simpl in *.
  rewrite Hp. simpl.
  destruct (GetPod ext ps r tmpl) as [[pod|] [e|]] eqn:Eg; simpl;
    try discriminate.
  repeat (break_match; simpl); rewrite ?Hp; try discriminate;
    intros _; try (exfalso; rewrite Hp in *; simpl in *; discriminate);
    found_by_name;
    repeat match goal with H : RoleName _ = _ |- _ => rewrite H end;
    repeat match goal with H : BindingName _ = _ |- _ => rewrite H end;
    eexists; eexists; eexists;
    do 7 (split; [first [reflexivity | eassumption | congruence]|]);
    (split; eexists;
     (split; [ first [left; reflexivity | eassumption]
             | first [reflexivity | eassumption] ])).
Qed.

(** X15: a provisioning that succeeds asks, in this order, for the
    pod, the role, the binding and one write of the status, and
    returns the success message with the names of the role and of the
    binding.  The request then carries the pod selected and the access
    command in memory; the stored object has the access command, and
    not yet the pod, which only a later write of the status takes to
    the cluster. *)
Theorem CreateAccessResources_success ext tmpl w :
  PodName (Status (request w)) = "" ->
  let '((msg, err), w') := CreateAccessResources ext tmpl w in
  err = None ->
  let name := generateResourceName ext (Namespace (request w)) (Name (request w)) in
  exists pod command,
    GetPod ext (pods w) (request w) tmpl = (Some pod, None)
    /\ CreateAccessCommand ext (AccessCommand (TemplateAccessConfig tmpl)) pod
       = Ok command
    /\ msg = "Success. Role " ++ name ++ ", RoleBinding " ++ name ++ " created"
    /\ PodName (Status (request w')) = PodObjName pod
    /\ AccessMessage (Status (request w')) = command
    /\ (exists s', stored w' = Some s'
                   /\ AccessMessage (Status s') = command
                   /\ PodName (Status s') = "")
    /\ (exists written,
          calls w'
          = CallStatusUpdate written
              :: CallCreateRoleBinding name name
              :: CallCreateRole name (accessRules pod)
              :: CallGetPod :: calls w).
Proof.
  intros Hp.
  pose proof (CreateAccessResources_succeeds ext tmpl w Hp) as H.
  destruct (CreateAccessResources ext tmpl w) as [[msg err] w'].
  intros He name. specialize (H He). cbv zeta in H. fold name in H.
  destruct H as (pod & command & s & Hg & Hc & Hs & Hm & Hr & Hs' & Hcalls & _).
  exists pod, command.
  split; [exact Hg|]. split; [exact Hc|]. split; [exact Hm|].
  rewrite Hr. split; [reflexivity|]. split; [reflexivity|]. split.
  - eexists. split; [exact Hs'|]. split; reflexivity.
  - eexists. exact Hcalls.
Qed.

Lemma CreateAccessResources_success_witness :
  let w := Sample.world (Sample.requestFor "1h" [] "") 0 in
  exists pod command,
    GetPod Sample.ext (pods w) (request w) Sample.template = (Some pod, None)
    /\ CreateAccessCommand Sample.ext
         (AccessCommand (TemplateAccessConfig Sample.template)) pod = Ok command
    /\ fst (fst (CreateAccessResources Sample.ext Sample.template w))
       = "Success. Role prod-alice-x7, RoleBinding prod-alice-x7 created".
Proof.
  intros w.
  pose proof (CreateAccessResources_success Sample.ext Sample.template w eq_refl)
    as H.
  destruct (CreateAccessResources Sample.ext Sample.template w) as [[msg err] w']
    eqn:E.
  assert (He : err = None)
    by (vm_compute in E; injection E as _ He _; symmetry; exact He).
  destruct (H He) as (pod & command & Hg & Hc & Hm & _).
  exists pod, command. repeat split; assumption.
Defined.

(** X16: [verifyAccessResourcesBuilt] takes the assignment to the
    cluster.  For a request without a pod, when it returns no error
    with the exec access builder, the stored object has the status of
    the in-memory request: the pod selected, the access command, and
    [ResourcesCreated=True] with the builder's success message. *)
Theorem verifyAccessResourcesBuilt_persists_assignment ext tmpl w :
  PodName (Status (request w)) = "" ->
  let '(err, w') := verifyAccessResourcesBuilt (ExecAccessBuilder ext tmpl) w in
  err = None ->
  let name := generateResourceName ext (Namespace (request w)) (Name (request w)) in
  exists pod command s',
    GetPod ext (pods w) (request w) tmpl = (Some pod, None)
    /\ stored w' = Some s'
    /\ Status s' = Status (request w')
    /\ PodName (Status s') = PodObjName pod
    /\ AccessMessage (Status s') = command
    /\ CreateAccessCommand ext (AccessCommand (TemplateAccessConfig tmpl)) pod
       = Ok command
    /\ hasCondition s' ConditionAccessResourcesCreated ConditionTrue
         ("Success. Role " ++ name ++ ", RoleBinding " ++ name ++ " created").
Proof.
  intros Hp. rewrite verifyAccessResourcesBuilt_run.
  simpl GenerateAccessResources.
  pose proof (CreateAccessResources_succeeds ext tmpl
                (with_calls (CallLog "Verifying that access resources are built"
                               :: calls w) w) Hp) as H.
  destruct (CreateAccessResources ext tmpl _) as [[msg [e|]] w1].
  - destruct (SetAccessResourcesNotCreated e w1). discriminate.
  - specialize (H eq_refl). cbv zeta in H. simpl in H.
    destruct H as (pod & command & s & Hg & Hc & Hs & Hm & Hr & Hs1 & _).
    unfold SetAccessResourcesCreated.
    destruct (UpdateCondition _ w1) as [err w2] eqn:E.
    apply UpdateCondition_inv in E.
    destruct E as (Hr2 & _ & _ & _ & _ & _ & _ & Hst).
    intros ->.
    set (name := generateResourceName ext (Namespace (request w))
                   (Name (request w))).
    destruct Hst as (s1 & _ & Hs2).
    exists pod, command, (with_status (Status (request w2)) s1).
    split; [exact Hg|]. split; [exact Hs2|]. split; [reflexivity|].
    rewrite Hr2, Hr. simpl.
    split; [reflexivity|]. split; [reflexivity|]. split; [exact Hc|].
    rewrite Hm.
    destruct (Find_Set_same (now w1) (Conditions (Status (request w)))
                (mkCondition ConditionAccessResourcesCreated ConditionTrue
                   ("Success. Role " ++ name ++ ", RoleBinding " ++ name
                      ++ " created"))) as (c & Hf & Hcs & Hcr & Hcm).
    exists c. simpl. auto.
Qed.

Lemma verifyAccessResourcesBuilt_persists_assignment_witness :
  let w := Sample.world (Sample.requestFor "1h" [] "") 0 in
  let w' := snd (verifyAccessResourcesBuilt
                   (ExecAccessBuilder Sample.ext Sample.template) w) in
  exists s', stored w' = Some s' /\ PodName (Status s') = "web-0".
Proof.
  intros w w'.
  pose proof (verifyAccessResourcesBuilt_persists_assignment Sample.ext
                Sample.template w eq_refl) as H.
  subst w'.
  destruct (verifyAccessResourcesBuilt _ w) as [err w'] eqn:E.
  assert (He : err = None)
    by (vm_compute in E; injection E as He _; symmetry; exact He).
  specialize (H He). cbv zeta in H.
  destruct H as (pod & command & s' & Hg & Hs & _ & Hp & _).
  exists s'. split; [exact Hs|].
  rewrite Hp. injection Hg as <-. reflexivity.
Defined.

(** X17: what [CreateAccessResources] leaves alone.  Whatever
    happens, it sets no condition and deletes nothing: the conditions,
    the identity and the spec of the in-memory request are as they
    were, the request is in the cluster after it if it was before, no
    role and no binding is lost, and at most one of each is added.
    The request in the cluster is either untouched, or, when the
    builder succeeds, it has received the status of the in-memory
    request as a whole: the in-memory conditions, the new access
    message, and the pod name still empty.  So the conditions in the
    cluster change only to those in memory, and not at all when the
    in-memory request was read from the cluster. *)
Theorem CreateAccessResources_frame ext tmpl w :
  let out := fst (CreateAccessResources ext tmpl w) in
  let w' := snd (CreateAccessResources ext tmpl w) in
  Conditions (Status (request w')) = Conditions (Status (request w))
  /\ Name (request w') = Name (request w)
  /\ Namespace (request w') = Namespace (request w)
  /\ Spec (request w') = Spec (request w)
  /\ (stored w' = None <-> stored w = None)
  /\ (forall s, stored w = Some s ->
        stored w' = Some s
        \/ (PodName (Status (request w)) = ""
            /\ snd out = None
            /\ stored w'
               = Some (with_status
                         {| Conditions := Conditions (Status (request w));
                            PodName := "";
                            AccessMessage :=
                              AccessMessage (Status (request w')) |} s)))
  /\ (forall s s', stored w = Some s -> stored w' = Some s' ->
        Conditions (Status s) = Conditions (Status (request w)) ->
        Conditions (Status s') = Conditions (Status s))
  /\ (roles w' = roles w \/ exists role, roles w' = role :: roles w)
  /\ (roleBindings w' = roleBindings w
      \/ exists binding, roleBindings w' = binding :: roleBindings w)
  /\ exists new,
      callsSince w w' new
      /\ existsb isDelete new = false
      /\ existsb isSetCondition new = false.
Proof.
  unfold_builder. unfold callsSince.
  destruct w as [r st rs bs ps n fs cs].
  destruct r as [rn rns rct rsp [rcs rpod rmsg]].
  destruct (String.eqb_spec rpod "") as [-> | Hpod]; simpl;
    [| apply String.eqb_neq in Hpod; rewrite ?Hpod; simpl ];
  repeat (break_match; simpl);
    (split; [reflexivity|]); (split; [reflexivity|]); (split; [reflexivity|]);
    (split; [reflexivity|]);
    (split; [split; intros; congruence|]);
    (split;
     [intros s0 Hs; try discriminate Hs; try (injection Hs as <-);
      first [ left; reflexivity
            | left; exact Hs
            | right; split; [reflexivity|]; split; reflexivity ]|]);
    (split;
     [intros s0 s1 Hs Hs1 Hc; try discriminate Hs;
      try (injection Hs as <-); try (injection Hs1 as <-);
      simpl in *; congruence|]);
    (split; [first [left; reflexivity | right; eexists; reflexivity]|]);
    (split; [first [left; reflexivity | right; eexists; reflexivity]|]);
    first [ exists []; repeat split; reflexivity
          | eexists [_]; repeat split; reflexivity
          | eexists [_; _]; repeat split; reflexivity
          | eexists [_; _; _]; repeat split; reflexivity
          | eexists [_; _; _; _]; repeat split; reflexivity ].
Qed.

(** The case the statement allows for: the request in the cluster has
    no condition, the in-memory one has one, and the builder's status
    write carries it to the cluster with the access message, the pod
    name left empty. *)
Lemma CreateAccessResources_frame_witness :
  let w' := snd (CreateAccessResources Sample.ext Sample.template
                   Demo.drifted) in
  stored w'
  = Some (with_status
            {| Conditions := [Sample.stillValid ConditionTrue];
               PodName := "";
               AccessMessage := "kubectl exec -ti web-0" |}
            (Sample.requestFor "1h" [] ""))
  /\ Conditions (Status (request w')) = [Sample.stillValid ConditionTrue].
Proof.
  intros w'.
  pose proof (CreateAccessResources_frame Sample.ext Sample.template
                Demo.drifted) as H.
  cbv zeta in H. fold w' in H.
  destruct H as (Hc & _ & _ & _ & _ & Hst & _).
  split; [| exact Hc].
  destruct (Hst (Sample.requestFor "1h" [] "") eq_refl)
    as [Hsame | (_ & _ & Hnew)].
  - vm_compute in Hsame. discriminate Hsame.
  - rewrite Hnew. reflexivity.
Defined.
